(** * ct-to-slack: the S3-triggered handler that announces new CT log
      certificates on a Slack webhook.

    The development embeds [Handler] of [ct_to_slack.go] and the few
    pieces of the Go standard library it computes with ([strings],
    [net/url], [fmt], [time]); the cloud services and the certificate
    libraries are collaborators gathered in one record. *)

From Stdlib Require Import ZArith List String Ascii Bool Lia.
Import ListNotations.

Local Open Scope list_scope.
Local Open Scope string_scope.

(** ** Package [strings] *)

Module strings.

(** [strings.HasPrefix(s, prefix)]. *)
Fixpoint HasPrefix (s prefix : string) {struct prefix} : bool :=
  match prefix with
  | EmptyString => true
  | String p prefix' =>
      match s with
      | EmptyString => false
      | String c s' => Ascii.eqb c p && HasPrefix s' prefix'
      end
  end.

(** [strings.Join(elems, sep)]: nothing for no element, the element
    alone for one, otherwise the elements with [sep] between them. *)
Fixpoint Join (elems : list string) (sep : string) : string :=
  match elems with
  | [] => ""
  | e :: rest =>
      match rest with
      | [] => e
      | _ :: _ => e ++ sep ++ Join rest sep
      end
  end.

(** [strings.Contains(s, substr)]. *)
Fixpoint Contains (s substr : string) : bool :=
  HasPrefix s substr ||
  match s with
  | EmptyString => false
  | String _ s' => Contains s' substr
  end.

End strings.

(** ** Errors

    Go's [error] values keep the dynamic type of the package that made
    them; the constructors below name that package call, the payload is
    the message. *)

Inductive error : Type :=
| ConfigError (msg : string)          (* config.LoadDefaultConfig *)
| ParamError (msg : string)           (* ssmparam: kv.Get *)
| EscapeError (s : string)            (* url.PathUnescape *)
| GetObjectError (msg : string)       (* s3client.GetObject *)
| JSONError (msg : string)            (* json: dec.Decode *)
| LeafError (msg : string)            (* ct.LogEntryFromLeaf *)
| X509Error (msg : string)            (* x509.ParseCertificate *)
| CertTextError (msg : string)        (* certinfo.CertificateText *)
| WebhookError (msg : string).        (* slack.PostWebhook *)

(** A call that returns [(T, error)] with [T] meaningful only when the
    error is nil. *)
Definition result (T : Type) : Type := (error + T)%type.

(** ** Package [net/url] *)

Module url.

Definition ishex (c : ascii) : bool :=
  let n := nat_of_ascii c in
  ((48 <=? n) && (n <=? 57)          (* '0'..'9' *)
   || (97 <=? n) && (n <=? 102)      (* 'a'..'f' *)
   || (65 <=? n) && (n <=? 70))%nat. (* 'A'..'F' *)

Definition unhex (c : ascii) : nat :=
  let n := nat_of_ascii c in
  if ((48 <=? n) && (n <=? 57))%nat then n - 48
  else if ((97 <=? n) && (n <=? 102))%nat then n - 97 + 10
  else if ((65 <=? n) && (n <=? 70))%nat then n - 65 + 10
  else 0.

(** The offending escape as [EscapeError] reports it: at most three
    bytes from the percent sign on. *)
Definition escapeAt (s : string) : string := substring 0 3 s.

(** [url.PathUnescape]: every [%XX] becomes the byte [XX]; a percent
    sign not followed by two hex digits is an [EscapeError]; a plus
    sign stays a plus sign (path mode). *)
Fixpoint PathUnescape (s : string) : result string :=
  match s with
  | EmptyString => inr EmptyString
  | String c rest =>
      if Ascii.eqb c "%" then
        match rest with
        | String a (String b rest') =>
            if ishex a && ishex b then
              match PathUnescape rest' with
              | inl e => inl e
              | inr t => inr (String (ascii_of_nat (unhex a * 16 + unhex b)) t)
              end
            else inl (EscapeError (escapeAt s))
        | _ => inl (EscapeError (escapeAt s))
        end
      else
        match PathUnescape rest with
        | inl e => inl e
        | inr t => inr (String c t)
        end
  end.

End url.

(** ** Package [fmt] *)

Module fmt.

(** [fmt.Sprintf] for string operands: the verb [%s] is replaced by
    the next operand (a missing one prints as Go's marker), [%%] is a
    percent sign, every other byte is copied.  Operands are inserted
    as they are and never scanned for verbs. *)
Fixpoint Sprintf (format : string) (a : list string) : string :=
  match format with
  | EmptyString => EmptyString
  | String c rest =>
      if Ascii.eqb c "%" then
        match rest with
        | String v rest' =>
            if Ascii.eqb v "s" then
              match a with
              | x :: a' => x ++ Sprintf rest' a'
              | [] => "%!s(MISSING)" ++ Sprintf rest' []
              end
            else if Ascii.eqb v "%" then String "%" (Sprintf rest' a)
            else String c (String v (Sprintf rest' a))
        | EmptyString => "%!(NOVERB)"
        end
      else String c (Sprintf rest a)
  end.

End fmt.

(** ** Package [time] *)

Module time.

Local Open Scope Z_scope.

(** A [time.Time] as far as formatting sees it: the instant in seconds
    since the Unix epoch and the offset of its location in seconds
    east of UTC.  [x509.ParseCertificate] yields UTC times, of offset
    0. *)
Record Time : Type := mkTime { unixSec : Z; offset : Z }.

Definition UTC (sec : Z) : Time := mkTime sec 0.

(** Seconds on the wall clock of the time's location. *)
Definition abs (t : Time) : Z := unixSec t + offset t.

(** Days since 1970-01-01 and second of the day. *)
Definition days (t : Time) : Z := abs t / 86400.
Definition secOfDay (t : Time) : Z := abs t mod 86400.

(** The proleptic Gregorian date of a day number, computed over
    400-year eras that start on 1 March. *)
Definition dayOfEra (d : Z) : Z := (d + 719468) mod 146097.
Definition era (d : Z) : Z := (d + 719468) / 146097.
Definition yearOfEra (d : Z) : Z :=
  let doe := dayOfEra d in
  (doe - doe / 1460 + doe / 36524 - doe / 146096) / 365.
Definition dayOfYear (d : Z) : Z :=
  let yoe := yearOfEra d in
  dayOfEra d - (365 * yoe + yoe / 4 - yoe / 100).
Definition monthIndex (d : Z) : Z := (5 * dayOfYear d + 2) / 153.

Definition dateMonth (d : Z) : Z :=
  let mp := monthIndex d in if mp <? 10 then mp + 3 else mp - 9.
Definition dateDay (d : Z) : Z :=
  dayOfYear d - (153 * monthIndex d + 2) / 5 + 1.
Definition dateYear (d : Z) : Z :=
  yearOfEra d + era d * 400 + (if dateMonth d <=? 2 then 1 else 0).

Definition Year (t : Time) : Z := dateYear (days t).
Definition Month (t : Time) : Z := dateMonth (days t).
Definition Day (t : Time) : Z := dateDay (days t).
Definition Hour (t : Time) : Z := secOfDay t / 3600.
Definition Minute (t : Time) : Z := secOfDay t mod 3600 / 60.
Definition Second (t : Time) : Z := secOfDay t mod 60.

Definition digit (d : Z) : ascii := ascii_of_nat (48 + Z.to_nat d).

(** Decimal digits of a natural number, most significant first. *)
Fixpoint utoa_from (fuel : nat) (u : Z) (acc : string) : string :=
  match fuel with
  | O => acc
  | S fuel' =>
      let acc' := String (digit (u mod 10)) acc in
      if u / 10 =? 0 then acc' else utoa_from fuel' (u / 10) acc'
  end.

Definition utoa (u : Z) : string :=
  utoa_from (S (Z.to_nat (Z.log2 u))) u EmptyString.

Fixpoint zeros (n : nat) : string :=
  match n with
  | O => EmptyString
  | S n' => String "0" (zeros n')
  end.

(** The digit tables [tens] and [ones] of the two-digit fast path. *)
Definition tens (u : Z) : ascii := digit (u / 10).
Definition ones (u : Z) : ascii := digit (u mod 10).

(** [appendInt(b, x, width)]: the decimal form of [x], zero-padded to
    [width] digits, after a minus sign when [x] is negative; fields of
    two and four digits are read off the digit tables. *)
Definition appendInt (x : Z) (width : nat) : string :=
  let u := Z.abs x in
  let body :=
    if (width =? 2)%nat && (u <? 100) then
      String (tens u) (String (ones u) EmptyString)
    else if (width =? 4)%nat && (u <? 10000) then
      String (tens (u / 100)) (String (ones (u / 100))
        (String (tens (u mod 100)) (String (ones (u mod 100)) EmptyString)))
    else
      let ds := utoa u in
      (zeros (width - String.length ds) ++ ds)%string in
  if x <? 0 then String "-" body else body.

(** The zone as layout element [Z07:00] prints it. *)
Definition formatZone (off : Z) : string :=
  if off =? 0 then "Z"
  else
    let zone := Z.quot off 60 in
    let sign := if zone <? 0 then "-" else "+" in
    let zone := Z.abs zone in
    (sign ++ appendInt (zone / 60) 2 ++ ":" ++ appendInt (zone mod 60) 2)%string.

(** [t.Format(time.RFC3339)], the layout [2006-01-02T15:04:05Z07:00]:
    date, [T], clock and zone, without fractional seconds. *)
Definition FormatRFC3339 (t : Time) : string :=
  (appendInt (Year t) 4 ++ "-" ++ appendInt (Month t) 2 ++ "-" ++
   appendInt (Day t) 2 ++ "T" ++
   appendInt (Hour t) 2 ++ ":" ++ appendInt (Minute t) 2 ++ ":" ++
   appendInt (Second t) 2 ++ formatZone (offset t))%string.

End time.

(** ** RFC 3339 timestamps

    A reader of the [date-time] production of RFC 3339, section 5.6,
    without fractional seconds: [YYYY-MM-DDTHH:MM:SS] followed by [Z] or
    a numeric offset [+HH:MM] or [-HH:MM], every field within its
    range and the day within its month. *)

Module rfc3339.

Local Open Scope Z_scope.

Record DateTime : Type := mkDateTime {
  year : Z; month : Z; day : Z;
  hour : Z; minute : Z; second : Z;
  zone : Z        (* minutes east of UTC *)
}.

Definition digitValue (c : ascii) : option Z :=
  let n := nat_of_ascii c in
  if ((48 <=? n) && (n <=? 57))%nat then Some (Z.of_nat (n - 48)) else None.

Definition num2 (a b : ascii) : option Z :=
  match digitValue a, digitValue b with
  | Some x, Some y => Some (10 * x + y)
  | _, _ => None
  end.

Definition num4 (a b c d : ascii) : option Z :=
  match num2 a b, num2 c d with
  | Some x, Some y => Some (100 * x + y)
  | _, _ => None
  end.

Definition isLeap (y : Z) : bool :=
  (y mod 4 =? 0) && (negb (y mod 100 =? 0) || (y mod 400 =? 0)).

Definition daysIn (y m : Z) : Z :=
  if m =? 2 then (if isLeap y then 29 else 28)
  else if (m =? 4) || (m =? 6) || (m =? 9) || (m =? 11) then 30
  else 31.

Definition parseOffset (s : string) : option Z :=
  match s with
  | String z EmptyString => if Ascii.eqb z "Z" then Some 0 else None
  | String sg (String h1 (String h2 (String c (String m1 (String m2 EmptyString))))) =>
      match num2 h1 h2, num2 m1 m2 with
      | Some h, Some m =>
          if Ascii.eqb c ":" && (h <=? 23) && (m <=? 59) then
            if Ascii.eqb sg "+" then Some (60 * h + m)
            else if Ascii.eqb sg "-" then Some (- (60 * h + m))
            else None
          else None
      | _, _ => None
      end
  | _ => None
  end.

Definition inRange (dt : DateTime) : bool :=
  (1 <=? month dt) && (month dt <=? 12) &&
  (1 <=? day dt) && (day dt <=? daysIn (year dt) (month dt)) &&
  (hour dt <=? 23) && (minute dt <=? 59) && (second dt <=? 60).

Definition parse (s : string) : option DateTime :=
  match s with
  | String y1 (String y2 (String y3 (String y4 (String p1
    (String mo1 (String mo2 (String p2
    (String d1 (String d2 (String t
    (String h1 (String h2 (String c1
    (String mi1 (String mi2 (String c2
    (String s1 (String s2 rest)))))))))))))))))) =>
      if Ascii.eqb p1 "-" && Ascii.eqb p2 "-" && Ascii.eqb t "T" &&
         Ascii.eqb c1 ":" && Ascii.eqb c2 ":" then
        match num4 y1 y2 y3 y4, num2 mo1 mo2, num2 d1 d2,
              num2 h1 h2, num2 mi1 mi2, num2 s1 s2, parseOffset rest with
        | Some y, Some mo, Some d, Some h, Some mi, Some sec, Some z =>
            let dt := mkDateTime y mo d h mi sec z in
            if inRange dt then Some dt else None
        | _, _, _, _, _, _, _ => None
        end
      else None
  | _ => None
  end.

(** The fields [time] computes for a [Time]. *)
Definition ofTime (t : time.Time) : DateTime :=
  mkDateTime (time.Year t) (time.Month t) (time.Day t)
             (time.Hour t) (time.Minute t) (time.Second t)
             (Z.quot (time.offset t) 60).

(** The times a certificate can carry: years 0000 to 9999 on the
    wall clock (the range of ASN.1 UTCTime and GeneralizedTime) in a
    zone less than a day from UTC. *)
Definition representable (t : time.Time) : Prop :=
  -62167219200 <= time.abs t <= 253402300799 /\
  -86400 < time.offset t < 86400.

(** The day number of a date, the inverse of the calendar of [time]:
    years counted from 1 March within 400-year eras. *)
Definition daysFromCivil (y m d : Z) : Z :=
  let y' := if m <=? 2 then y - 1 else y in
  let era := y' / 400 in
  let yoe := y' - era * 400 in
  let doy := (153 * (if m <=? 2 then m + 9 else m - 3) + 2) / 5 + d - 1 in
  let doe := yoe * 365 + yoe / 4 - yoe / 100 + doy in
  era * 146097 + doe - 719468.

(** The instant and zone a timestamp denotes. *)
Definition toTime (dt : DateTime) : time.Time :=
  let wall := daysFromCivil (year dt) (month dt) (day dt) * 86400 +
              hour dt * 3600 + minute dt * 60 + second dt in
  time.mkTime (wall - zone dt * 60) (zone dt * 60).

(** Reading a timestamp back to a time. *)
Definition read (s : string) : option time.Time := option_map toTime (parse s).

End rfc3339.

(** ** Data of the collaborating packages *)

Definition bytes : Type := list Byte.byte.

(** [github.com/aws/aws-lambda-go/events]: the part of an S3 event the
    handler reads. *)
Module events.
Record S3Bucket : Type := mkS3Bucket { Name : string }.
Record S3Object : Type := mkS3Object { Key : string }.
Record S3Entity : Type := mkS3Entity { Bucket : S3Bucket; Object : S3Object }.
Record S3EventRecord : Type := mkS3EventRecord { S3 : S3Entity }.
Record S3Event : Type := mkS3Event { Records : list S3EventRecord }.

Definition record (bucket key : string) : S3EventRecord :=
  mkS3EventRecord (mkS3Entity (mkS3Bucket bucket) (mkS3Object key)).
End events.

(** [github.com/google/certificate-transparency-go]. *)
Module ct.
Record LeafEntry : Type := mkLeafEntry { LeafInput : bytes; ExtraData : bytes }.
(** The certificate of a log entry, of which the handler reads the
    DER bytes only. *)
Record Certificate : Type := mkCertificate { Raw : bytes }.
(** [X509Cert] is a pointer: [None] is nil, as in a precertificate
    entry. *)
Record LogEntry : Type := mkLogEntry { Index : Z; X509Cert : option Certificate }.
End ct.

(** [crypto/x509]. *)
Module x509.
Record Certificate : Type := mkCertificate {
  DNSNames : list string;
  NotBefore : time.Time;
  NotAfter : time.Time
}.
End x509.

(** ** Observable events

    What an invocation does to the outside, in order: the calls to the
    services and the structured log lines. *)

Inductive Level : Type := LevelInfo | LevelError.

Inductive Attr : Type :=
| AStr (s : string)
| AErr (err : error).

Inductive Event : Type :=
| EvLoadConfig
| EvGetParam (name : string)
| EvGetObject (bucket key : string)
| EvCloseBody (bucket key : string)
| EvPostWebhook (url text : string)
| EvLog (level : Level) (msg : string) (attrs : list (string * Attr)).

(** The services and libraries behind the handler.  The services act
    on a world; the decoders are functions of their input.  A failing
    call gives the message of its error. *)
Record Collaborators (World : Type) : Type := mkCollaborators {
  (* config.LoadDefaultConfig; the clients made from it live in the world *)
  LoadDefaultConfig : World -> option string * World;
  (* kv.Get(name): Go's pair of a string and an error *)
  ParamGet : string -> World -> (string * option string) * World;
  (* s3client.GetObject(bucket, key): the body of the object *)
  GetObject : string -> string -> World -> (string + bytes) * World;
  (* json.NewDecoder(body).Decode into a ct.LeafEntry *)
  DecodeLeafEntry : bytes -> string + ct.LeafEntry;
  (* ct.LogEntryFromLeaf(index, leaf) *)
  LogEntryFromLeaf : Z -> ct.LeafEntry -> string + ct.LogEntry;
  (* x509.ParseCertificate(der) *)
  ParseCertificate : bytes -> string + x509.Certificate;
  (* certinfo.CertificateText(cert) *)
  CertificateText : x509.Certificate -> string + string;
  (* slack.PostWebhook(url, message with this text) *)
  PostWebhook : string -> string -> World -> option string * World
}.

Arguments LoadDefaultConfig {World} _ _.
Arguments ParamGet {World} _ _ _.
Arguments GetObject {World} _ _ _ _.
Arguments DecodeLeafEntry {World} _ _.
Arguments LogEntryFromLeaf {World} _ _ _.
Arguments ParseCertificate {World} _ _.
Arguments CertificateText {World} _ _.
Arguments PostWebhook {World} _ _ _ _.

(** ** The handler's monad

    State is the world and the events so far; a computation either goes
    on with a value or has made [Handler] return ([None] is Go's nil
    error). *)

Inductive flow (A : Type) : Type :=
| Next (a : A)
| Return (err : option error).

Arguments Next {A} a.
Arguments Return {A} err.

Record State (World : Type) : Type := mkState {
  world : World;
  trace : list Event
}.

Arguments mkState {World} _ _.
Arguments world {World} _.
Arguments trace {World} _.

Definition M (World A : Type) : Type := State World -> flow A * State World.

Definition pure {World A} (a : A) : M World A := fun s => (Next a, s).

Definition bind {World A B} (m : M World A) (k : A -> M World B) : M World B :=
  fun s =>
    match m s with
    | (Next a, s') => k a s'
    | (Return err, s') => (Return err, s')
    end.

(** The [return] statement of [Handler]. *)
Definition return_ {World A} (err : option error) : M World A :=
  fun s => (Return err, s).

Definition emit {World} (ev : Event) : M World unit :=
  fun s => (Next tt, mkState (world s) (trace s ++ [ev])).

(** A call to a service: the event is recorded, then the world moves. *)
Definition call {World A} (ev : Event) (f : World -> A * World) : M World A :=
  fun s =>
    let (a, w) := f (world s) in
    (Next a, mkState w (trace s ++ [ev])).

Declare Scope go_scope.
Delimit Scope go_scope with go.
Notation "x <- m ;; k" := (bind m (fun x => k))
  (at level 61, m at next level, right associativity) : go_scope.
Notation "m ;; k" := (bind m (fun _ => k))
  (at level 61, right associativity) : go_scope.
Local Open Scope go_scope.

(** [if err != nil { onErr; return err }] after a call that gave [r]. *)
Definition check {World A} (r : result A) (onErr : error -> M World unit)
  : M World A :=
  match r with
  | inl err => onErr err ;; return_ (Some err)
  | inr a => pure a
  end.

(** The error of one package call around the message a collaborator
    gave. *)
Definition wrap {A} (mk : string -> error) (r : string + A) : result A :=
  match r with
  | inl msg => inl (mk msg)
  | inr a => inr a
  end.

(** ** Package [main]: [ct_to_slack.go] *)

Module main.

Import events.

Definition prefix : string := "certs/".

Definition nl : string := String (ascii_of_nat 10) EmptyString.

(** The format of the message, the five concatenated literals of the
    [fmt.Sprintf] call. *)
Definition messageFormat : string :=
  Eval cbv in
    ("*New Certificate Detected*" ++ nl ++ nl ++
     "*Key:* %s" ++ nl ++
     "*DNS Names:* %s" ++ nl ++
     "*Not Before:* %s" ++ nl ++
     "*Not After:* %s" ++ nl ++ nl ++
     "*Certificate Details:*" ++ nl ++ "```%s```").

(** Lines 105 to 117: the text of the notification for a parsed
    certificate. *)
Definition messageText (key : string) (cert : x509.Certificate)
    (certInfoTxt : string) : string :=
  let dnsNames := strings.Join (x509.DNSNames cert) ", " in
  fmt.Sprintf messageFormat
    [key; dnsNames;
     time.FormatRFC3339 (x509.NotBefore cert);
     time.FormatRFC3339 (x509.NotAfter cert);
     certInfoTxt].

Section Handler.

Context {World : Type} (env : Collaborators World).

Definition lgrInfo (msg : string) (attrs : list (string * Attr))
  : M World unit := emit (EvLog LevelInfo msg attrs).

Definition lgrError (msg : string) (attrs : list (string * Attr))
  : M World unit := emit (EvLog LevelError msg attrs).

Definition s3GetObject (bucket key : string) : M World (result bytes) :=
  call (EvGetObject bucket key)
       (fun w => let (r, w') := GetObject env bucket key w in
                 (wrap GetObjectError r, w')).

Definition slackPostWebhook (webhookURL text : string)
  : M World (option error) :=
  call (EvPostWebhook webhookURL text)
       (fun w => let (r, w') := PostWebhook env webhookURL text w in
                 (option_map WebhookError r, w')).

(** Lines 64 to 124: the rest of the loop body, once the key is
    accepted and unescaped.  Ending with a value is reaching the end
    of the body. *)
Definition process (webhookURL bucket key : string) : M World unit :=
  resp <- s3GetObject bucket key ;;
  body <- check resp (fun err =>
            lgrError "get obj err" [("key", AStr key); ("err", AErr err)]) ;;
  rawEntry <- check (wrap JSONError (DecodeLeafEntry env body)) (fun err =>
            lgrError "decode json err" [("key", AStr key); ("err", AErr err)]) ;;
  emit (EvCloseBody bucket key) ;;
  logEntry <- check (wrap LeafError (LogEntryFromLeaf env 0 rawEntry)) (fun err =>
            lgrError "load log entry leaf err" [("key", AStr key); ("err", AErr err)]) ;;
  match ct.X509Cert logEntry with
  | None =>
      lgrError "expected x509 cert but got none" [("key", AStr key)] ;;
      return_ None
  | Some leafCert =>
      cert <- check (wrap X509Error (ParseCertificate env (ct.Raw leafCert))) (fun err =>
                lgrError "x509 parse err" [("key", AStr key); ("err", AErr err)]) ;;
      certInfoTxt <- check (wrap CertTextError (CertificateText env cert)) (fun err =>
                lgrError "cert txt err" [("key", AStr key); ("err", AErr err)]) ;;
      err <- slackPostWebhook webhookURL (messageText key cert certInfoTxt) ;;
      match err with
      | Some err => lgrError "slack_webhook_err" [("err", AErr err)]
      | None => pure tt
      end
  end.

Definition skipLog (key : string) : Event :=
  EvLog LevelInfo "skipping_file_outside_prefix"
        [("key", AStr key); ("prefix", AStr prefix)].

(** The body of the loop over [evt.Records]: lines 53 to 62, then
    [process].  Ending with a value is [continue] or the end of the
    body. *)
Definition iteration (webhookURL : string) (rec : S3EventRecord)
  : M World unit :=
  let key := Key (Object (S3 rec)) in
  if negb (strings.HasPrefix key prefix) then
    emit (skipLog key)
  else
    key <- check (url.PathUnescape key) (fun _ => pure tt) ;;
    process webhookURL (Name (Bucket (S3 rec))) key.

(** [for _, rec := range evt.Records]. *)
Fixpoint forRecords (webhookURL : string) (recs : list S3EventRecord)
  : M World unit :=
  match recs with
  | [] => pure tt
  | rec :: rest => iteration webhookURL rec ;; forRecords webhookURL rest
  end.

(** Lines 37 to 50: the clients and the webhook address.  A failed
    lookup of the address is logged and the address is whatever
    [kv.Get] gave with its error. *)
Definition prologue : M World string :=
  cfgErr <- call EvLoadConfig (LoadDefaultConfig env) ;;
  match cfgErr with
  | Some msg => return_ (Some (ConfigError msg))
  | None =>
      got <- call (EvGetParam "webhook_url") (ParamGet env "webhook_url") ;;
      let (webhookURL, err) := got in
      match err with
      | Some msg => lgrError "get_webhook_url_err" [("err", AErr (ParamError msg))]
      | None => pure tt
      end ;;
      pure webhookURL
  end.

Definition HandlerM (evt : S3Event) : M World Empty_set :=
  webhookURL <- prologue ;;
  forRecords webhookURL (Records evt) ;;
  return_ None.

(** What [Handler] gives once a computation has ended: falling out of
    the loop is the final [return nil]. *)
Definition finish {A} (r : flow A * State World)
  : option error * State World :=
  match r with
  | (Return err, s) => (err, s)
  | (Next _, s) => (None, s)
  end.

(** [Handler(evt)] started in world [w]: the error it returns and
    the world and events it leaves. *)
Definition Handler (evt : S3Event) (w : World)
  : option error * State World :=
  finish (HandlerM evt (mkState w [])).

(** The handler on its way through a batch that begins with [pre]:
    [Next webhookURL] when it is past [pre] without having
    returned. *)
Definition past (pre : list S3EventRecord) (w : World)
  : flow string * State World :=
  (webhookURL <- prologue ;;
   forRecords webhookURL pre ;;
   pure webhookURL) (mkState w []).

End Handler.

(** The notifications sent and the objects fetched, read off a
    trace. *)
Fixpoint posts (tr : list Event) : list (string * string) :=
  match tr with
  | [] => []
  | EvPostWebhook u t :: tr' => (u, t) :: posts tr'
  | _ :: tr' => posts tr'
  end.

Fixpoint fetches (tr : list Event) : list (string * string) :=
  match tr with
  | [] => []
  | EvGetObject b k :: tr' => (b, k) :: fetches tr'
  | _ :: tr' => fetches tr'
  end.

(** The errors of the steps between accepting a key and delivering
    its notification. *)
Definition fromPipeline (e : error) : bool :=
  match e with
  | EscapeError _ | GetObjectError _ | JSONError _
  | LeafError _ | X509Error _ | CertTextError _ => true
  | ConfigError _ | ParamError _ | WebhookError _ => false
  end.

Section Cases.

Context {World : Type} (env : Collaborators World).

(** In world [w] the record is accepted, fetched and decoded, and
    its log entry is reconstructed: the unescaped key, the entry and
    the world after the fetch. *)
Inductive reachesEntry (rec : S3EventRecord) (w : World)
  : string -> ct.LogEntry -> World -> Prop :=
| reaches_entry key body w' leaf entry :
    strings.HasPrefix (Key (Object (S3 rec))) prefix = true ->
    url.PathUnescape (Key (Object (S3 rec))) = inr key ->
    GetObject env (Name (Bucket (S3 rec))) key w = (inr body, w') ->
    DecodeLeafEntry env body = inr leaf ->
    LogEntryFromLeaf env 0 leaf = inr entry ->
    reachesEntry rec w key entry w'.

(** In world [w] the record goes all the way to the message: the
    unescaped key, the text of the notification and the world in
    which it is posted. *)
Inductive reachesDelivery (rec : S3EventRecord) (w : World)
  : string -> string -> World -> Prop :=
| reaches_delivery key entry w' leafCert cert certInfoTxt :
    reachesEntry rec w key entry w' ->
    ct.X509Cert entry = Some leafCert ->
    ParseCertificate env (ct.Raw leafCert) = inr cert ->
    CertificateText env cert = inr certInfoTxt ->
    reachesDelivery rec w key (messageText key cert certInfoTxt) w'.

(** In world [w] one of the five steps before delivery fails for the
    record with error [e]: unescaping the key, retrieving the
    object, decoding the leaf entry, reconstructing the log entry,
    parsing the certificate. *)
Inductive failsWith (rec : S3EventRecord) (w : World) : error -> Prop :=
| fails_unescape e :
    strings.HasPrefix (Key (Object (S3 rec))) prefix = true ->
    url.PathUnescape (Key (Object (S3 rec))) = inl e ->
    failsWith rec w e
| fails_retrieval key msg w' :
    strings.HasPrefix (Key (Object (S3 rec))) prefix = true ->
    url.PathUnescape (Key (Object (S3 rec))) = inr key ->
    GetObject env (Name (Bucket (S3 rec))) key w = (inl msg, w') ->
    failsWith rec w (GetObjectError msg)
| fails_decode key body w' msg :
    strings.HasPrefix (Key (Object (S3 rec))) prefix = true ->
    url.PathUnescape (Key (Object (S3 rec))) = inr key ->
    GetObject env (Name (Bucket (S3 rec))) key w = (inr body, w') ->
    DecodeLeafEntry env body = inl msg ->
    failsWith rec w (JSONError msg)
| fails_reconstruct key body w' leaf msg :
    strings.HasPrefix (Key (Object (S3 rec))) prefix = true ->
    url.PathUnescape (Key (Object (S3 rec))) = inr key ->
    GetObject env (Name (Bucket (S3 rec))) key w = (inr body, w') ->
    DecodeLeafEntry env body = inr leaf ->
    LogEntryFromLeaf env 0 leaf = inl msg ->
    failsWith rec w (LeafError msg)
| fails_parse key entry w' leafCert msg :
    reachesEntry rec w key entry w' ->
    ct.X509Cert entry = Some leafCert ->
    ParseCertificate env (ct.Raw leafCert) = inl msg ->
    failsWith rec w (X509Error msg).

End Cases.

(** The per-key order as the specification words it, for comparison
    with [iteration]: unescape the key first, test the unescaped key
    for the prefix, then go on with [process]. *)
Definition iterationUnescapeFirst {World : Type} (env : Collaborators World)
    (webhookURL : string) (rec : S3EventRecord) : M World unit :=
  key <- check (url.PathUnescape (Key (Object (S3 rec)))) (fun _ => pure tt) ;;
  if negb (strings.HasPrefix key prefix) then
    emit (skipLog key)
  else
    process env webhookURL (Name (Bucket (S3 rec))) key.

End main.

(** ** A test double

    A small world of stored objects with stand-ins for the decoders,
    used to run the handler on concrete batches. *)

Module fixture.

Import main.

Local Open Scope Z_scope.

Record World : Type := mkWorld {
  objects : list (string * string * string);   (* bucket, key, body *)
  webhookParam : string + string;              (* lookup error or address *)
  slackUp : bool;
  delivered : list (string * string)           (* address, text *)
}.

Fixpoint lookup (objs : list (string * string * string)) (bucket key : string)
  : option string :=
  match objs with
  | [] => None
  | (b, k, body) :: objs' =>
      if String.eqb b bucket && String.eqb k key then Some body
      else lookup objs' bucket key
  end.

Inductive Kind : Type := KCert | KPrecert | KBadDer | KUnknown.

Definition certBody : string := "{leaf:x509}".
Definition precertBody : string := "{leaf:precert}".
Definition badDerBody : string := "{leaf:x509-bad-der}".
Definition unknownBody : string := "{leaf:unknown}".
Definition truncatedBody : string := "{leaf:x5".

Definition kindOf (b : bytes) : option Kind :=
  let s := string_of_list_byte b in
  if String.eqb s certBody then Some KCert
  else if String.eqb s precertBody then Some KPrecert
  else if String.eqb s badDerBody then Some KBadDer
  else if String.eqb s unknownBody then Some KUnknown
  else None.

(** The certificate of the scenario: two DNS names, valid from
    2024-01-01T00:00:00Z to 2025-01-01T00:00:00Z. *)
Definition exampleCert : x509.Certificate :=
  x509.mkCertificate ["a.example.com"; "b.example.com"]
                     (time.UTC 1704067200) (time.UTC 1735689600).

Definition exampleCertText : string :=
  Eval cbv in
    ("Certificate:" ++ nl ++
     "    Data:" ++ nl ++
     "        Version: 3 (0x2)" ++ nl ++
     "        Validity" ++ nl ++
     "            Not Before: Jan  1 00:00:00 2024 UTC" ++ nl ++
     "            Not After : Jan  1 00:00:00 2025 UTC" ++ nl ++
     "        X509v3 extensions:" ++ nl ++
     "            X509v3 Subject Alternative Name:" ++ nl ++
     "                DNS:a.example.com, DNS:b.example.com" ++ nl)%string.

Definition env : Collaborators World :=
  {| LoadDefaultConfig := fun w => (None, w);
     ParamGet := fun _ w =>
       match webhookParam w with
       | inl msg => (("", Some msg), w)
       | inr address => ((address, None), w)
       end;
     GetObject := fun bucket key w =>
       match lookup (objects w) bucket key with
       | Some body => (inr (list_byte_of_string body), w)
       | None => (inl "NoSuchKey", w)
       end;
     DecodeLeafEntry := fun body =>
       match kindOf body with
       | Some _ => inr (ct.mkLeafEntry body [])
       | None => inl "unexpected EOF"
       end;
     LogEntryFromLeaf := fun index leaf =>
       match kindOf (ct.LeafInput leaf) with
       | Some KCert | Some KBadDer =>
           inr (ct.mkLogEntry index (Some (ct.mkCertificate (ct.LeafInput leaf))))
       | Some KPrecert => inr (ct.mkLogEntry index None)
       | _ => inl "unknown entry type"
       end;
     ParseCertificate := fun der =>
       match kindOf der with
       | Some KCert => inr exampleCert
       | _ => inl "x509: malformed certificate"
       end;
     CertificateText := fun _ => inr exampleCertText;
     PostWebhook := fun address text w =>
       if slackUp w && negb (String.eqb address "") then
         (None, mkWorld (objects w) (webhookParam w) (slackUp w)
                        (delivered w ++ [(address, text)]))
       else (Some "slack server error", w)
  |}.

Definition hook : string := "https://hooks.example/T0/B0".

(** A bucket with one object of every kind. *)
Definition store : list (string * string * string) :=
  [("ct", "certs/abc.json", certBody);
   ("ct", "certs/def.json", certBody);
   ("ct", "certs/pre.json", precertBody);
   ("ct", "certs/der.json", badDerBody);
   ("ct", "certs/unk.json", unknownBody);
   ("ct", "certs/cut.json", truncatedBody)].

Definition healthy : World := mkWorld store (inr hook) true [].
Definition worldSlackDown : World := mkWorld store (inr hook) false [].
Definition worldNoParam : World := mkWorld store (inl "ParameterNotFound") true [].

Definition batch (keys : list string) : events.S3Event :=
  events.mkS3Event (map (events.record "ct") keys).

Definition abc : events.S3EventRecord := events.record "ct" "certs/abc.json".
Definition def : events.S3EventRecord := events.record "ct" "certs/def.json".

(** The same services without credentials: the configuration does not
    load. *)
Definition envNoConfig : Collaborators World :=
  {| LoadDefaultConfig := fun w => (Some "no credentials", w);
     ParamGet := ParamGet env;
     GetObject := GetObject env;
     DecodeLeafEntry := DecodeLeafEntry env;
     LogEntryFromLeaf := LogEntryFromLeaf env;
     ParseCertificate := ParseCertificate env;
     CertificateText := CertificateText env;
     PostWebhook := PostWebhook env
  |}.

(** The same services with a text renderer that gives up. *)
Definition envNoText : Collaborators World :=
  {| LoadDefaultConfig := LoadDefaultConfig env;
     ParamGet := ParamGet env;
     GetObject := GetObject env;
     DecodeLeafEntry := DecodeLeafEntry env;
     LogEntryFromLeaf := LogEntryFromLeaf env;
     ParseCertificate := ParseCertificate env;
     CertificateText := fun _ => inl "unsupported public key";
     PostWebhook := PostWebhook env
  |}.

End fixture.

(** ** Reading a run

    What is read off the records of a batch and off the trace of a run
    to state what the handler did. *)

Module observations.

Import main events.

(** The bodies closed, in order. *)
Fixpoint closes (tr : list Event) : list (string * string) :=
  match tr with
  | [] => []
  | EvCloseBody b k :: tr' => (b, k) :: closes tr'
  | _ :: tr' => closes tr'
  end.

Definition isLog (ev : Event) : bool :=
  match ev with
  | EvLog _ _ _ => true
  | _ => false
  end.

(** A trace without its log lines: the calls to the services. *)
Definition calls (tr : list Event) : list Event :=
  filter (fun ev => negb (isLog ev)) tr.

(** The setup calls of lines 37 to 47. *)
Definition isSetup (ev : Event) : bool :=
  match ev with
  | EvLoadConfig | EvGetParam _ => true
  | _ => false
  end.

(** The test of line 54 on a record. *)
Definition accepted (rec : S3EventRecord) : bool :=
  strings.HasPrefix (Key (Object (S3 rec))) prefix.

(** The object a record makes the handler ask for: the bucket of the
    record and its key unescaped, for an accepted record whose key
    unescapes. *)
Definition target (rec : S3EventRecord) : option (string * string) :=
  if accepted rec then
    match url.PathUnescape (Key (Object (S3 rec))) with
    | inr key => Some (Name (Bucket (S3 rec)), key)
    | inl _ => None
    end
  else None.

Fixpoint targets (recs : list S3EventRecord) : list (string * string) :=
  match recs with
  | [] => []
  | rec :: recs' =>
      match target rec with
      | Some t => t :: targets recs'
      | None => targets recs'
      end
  end.

(** Whether a string holds a percent sign. *)
Fixpoint hasPercent (s : string) : bool :=
  match s with
  | EmptyString => false
  | String c s' => Ascii.eqb c "%" || hasPercent s'
  end.

(** What one round of the loop adds to the trace, by its outcome [r]:
    no setup call; the fetch of the record's target and nothing else
    fetched; every fetch closed, but for one when the round returns a
    retrieval or decode error; at most one post, made only by a round
    that runs to its end and has closed the body, to the address given
    and with the text of a certificate. *)
Definition roundShape (webhookURL : string) (rec : S3EventRecord)
    (r : flow unit) (evs : list Event) : Prop :=
  forallb (fun ev => negb (isSetup ev)) evs = true /\
  fetches evs = match target rec with Some t => [t] | None => [] end /\
  (exists rest,
      fetches evs = (closes evs ++ rest)%list /\
      (rest = [] \/
       exists t m, rest = [t] /\
                   (r = Return (Some (GetObjectError m)) \/
                    r = Return (Some (JSONError m))))) /\
  (posts evs = [] \/
   exists key cert txt,
     r = Next tt /\
     closes evs = [(Name (Bucket (S3 rec)), key)] /\
     posts evs = [(webhookURL, messageText key cert txt)]).



End observations.

(** * Properties *)

(** ** The library functions on known values *)

Example PathUnescape_escaped_slash :
  url.PathUnescape "certs%2Fabc.json" = inr "certs/abc.json".
Proof. reflexivity. Qed.

Example PathUnescape_plus_kept :
  url.PathUnescape "certs/a+b%20c" = inr "certs/a+b c".
Proof. reflexivity. Qed.

Example PathUnescape_bad_escape :
  url.PathUnescape "certs/a%zz.json" = inl (EscapeError "%zz").
Proof. reflexivity. Qed.

Example PathUnescape_short_escape :
  url.PathUnescape "certs/a%4" = inl (EscapeError "%4").
Proof. reflexivity. Qed.

Example Join_three : strings.Join ["a"; "b"; "c"] ", " = "a, b, c".
Proof. reflexivity. Qed.

Example Sprintf_operand_not_rescanned :
  fmt.Sprintf "k=%s v=%s" ["%s"; "x"] = "k=%s v=x".
Proof. reflexivity. Qed.

Example Format_epoch :
  time.FormatRFC3339 (time.UTC 0) = "1970-01-01T00:00:00Z".
Proof. reflexivity. Qed.

Example Format_leap_day :
  time.FormatRFC3339 (time.UTC 951868799) = "2000-02-29T23:59:59Z".
Proof. reflexivity. Qed.

Example Format_last_second :
  time.FormatRFC3339 (time.UTC 253402300799) = "9999-12-31T23:59:59Z".
Proof. reflexivity. Qed.

Example Format_west_of_UTC :
  time.FormatRFC3339 (time.mkTime 1709164800 (-19800)) = "2024-02-28T18:30:00-05:30".
Proof. reflexivity. Qed.

Example Format_year_10000 :
  time.FormatRFC3339 (time.UTC 253402300800) = "10000-01-01T00:00:00Z".
Proof. reflexivity. Qed.

(** ** The calendar of package [time] *)

Section Calendar.

Import time.
Local Open Scope Z_scope.

Lemma dayOfEra_range d : 0 <= dayOfEra d <= 146096.
Proof.
  unfold dayOfEra. pose proof (Z.mod_pos_bound (d + 719468) 146097). lia.
Qed.

Lemma yearOfEra_range d : 0 <= yearOfEra d <= 399.
Proof.
  unfold yearOfEra. pose proof (dayOfEra_range d) as H.
  revert H. generalize (dayOfEra d). intros doe H. cbv zeta.
  Z.div_mod_to_equations; lia.
Qed.

Lemma dayOfYear_range d : 0 <= dayOfYear d <= 365.
Proof.
  unfold dayOfYear, yearOfEra. pose proof (dayOfEra_range d) as H.
  revert H. generalize (dayOfEra d). intros doe H. cbv zeta.
  Z.div_mod_to_equations; lia.
Qed.

Lemma monthIndex_range d : 0 <= monthIndex d <= 11.
Proof.
  unfold monthIndex. pose proof (dayOfYear_range d).
  Z.div_mod_to_equations; lia.
Qed.

Lemma dateMonth_range d : 1 <= dateMonth d <= 12.
Proof.
  unfold dateMonth. pose proof (monthIndex_range d). cbv zeta.
  destruct (Z.ltb_spec (monthIndex d) 10); lia.
Qed.

Lemma dateDay_range d : 1 <= dateDay d <= 31.
Proof.
  unfold dateDay, monthIndex. pose proof (dayOfYear_range d).
  Z.div_mod_to_equations; lia.
Qed.

(** A year has a day 365, counted from 1 March, only when the next
    calendar year is a leap year. *)
Lemma leapDay_year d :
  dayOfYear d = 365 ->
  yearOfEra d mod 4 = 3 /\ (yearOfEra d mod 100 <> 99 \/ yearOfEra d = 399).
Proof.
  unfold dayOfYear, yearOfEra. pose proof (dayOfEra_range d) as H.
  revert H. generalize (dayOfEra d). intros doe H. cbv zeta. intros.
  Z.div_mod_to_equations; lia.
Qed.

Lemma february d :
  dateMonth d = 2 -> monthIndex d = 11 /\ dateDay d = dayOfYear d - 336.
Proof.
  unfold dateMonth, dateDay. cbv zeta. intros Hm2.
  pose proof (monthIndex_range d).
  destruct (Z.ltb_spec (monthIndex d) 10) as [Hlt|Hge]; [lia|].
  assert (Hmp : monthIndex d = 11) by lia. rewrite Hmp. split; [reflexivity|].
  change ((153 * 11 + 2) / 5) with 337. lia.
Qed.

Lemma daysIn_cases y m :
  1 <= m <= 12 ->
  (m = 2 /\ rfc3339.isLeap y = true /\ rfc3339.daysIn y m = 29) \/
  (m = 2 /\ rfc3339.isLeap y = false /\ rfc3339.daysIn y m = 28) \/
  ((m = 4 \/ m = 6 \/ m = 9 \/ m = 11) /\ rfc3339.daysIn y m = 30) \/
  ((m = 1 \/ m = 3 \/ m = 5 \/ m = 7 \/ m = 8 \/ m = 10 \/ m = 12)
   /\ rfc3339.daysIn y m = 31).
Proof.
  intros Hm.
  assert (m = 1 \/ m = 2 \/ m = 3 \/ m = 4 \/ m = 5 \/ m = 6 \/ m = 7 \/
          m = 8 \/ m = 9 \/ m = 10 \/ m = 11 \/ m = 12) as Hc by lia.
  unfold rfc3339.daysIn.
  repeat (destruct Hc as [Hc | Hc]); subst m; cbn -[rfc3339.isLeap];
    try (destruct (rfc3339.isLeap y)); intuition lia.
Qed.

Lemma isLeap_false y :
  rfc3339.isLeap y = false ->
  y mod 4 <> 0 \/ (y mod 100 = 0 /\ y mod 400 <> 0).
Proof.
  unfold rfc3339.isLeap.
  destruct (Z.eqb_spec (y mod 4) 0), (Z.eqb_spec (y mod 100) 0),
           (Z.eqb_spec (y mod 400) 0); cbn; intros; try discriminate; lia.
Qed.

(** The day of the month exists in that month of that year. *)
Lemma dateDay_daysIn d :
  dateDay d <= rfc3339.daysIn (dateYear d) (dateMonth d).
Proof.
  pose proof (dateMonth_range d) as Hm.
  pose proof (dayOfYear_range d) as Hdoy.
  destruct (daysIn_cases (dateYear d) (dateMonth d) Hm) as [H|[H|[H|H]]].
  - destruct H as (Hm2 & _ & ->). destruct (february d Hm2) as [_ ->]. lia.
  - destruct H as (Hm2 & Hleap & ->).
    destruct (february d Hm2) as [_ ->].
    apply isLeap_false in Hleap.
    pose proof (yearOfEra_range d) as Hyoe.
    pose proof (leapDay_year d) as Hl.
    unfold dateYear in Hleap. rewrite Hm2 in Hleap. cbn in Hleap.
    revert Hdoy Hyoe Hl Hleap.
    generalize (dayOfYear d) (yearOfEra d) (era d). intros doy yoe e. intros.
    Z.div_mod_to_equations; lia.
  - destruct H as (Hm2 & ->).
    unfold dateMonth in Hm2. cbv zeta in Hm2. unfold dateDay.
    pose proof (monthIndex_range d) as Hmp.
    unfold monthIndex in *.
    destruct (Z.ltb_spec ((5 * dayOfYear d + 2) / 153) 10) as [Hlt|Hge];
      (Z.div_mod_to_equations; lia).
  - destruct H as (_ & ->). pose proof (dateDay_range d); lia.
Qed.

Lemma dateYear_range d :
  -719528 <= d <= 2932896 -> 0 <= dateYear d <= 9999.
Proof.
  intros Hd. unfold dateYear.
  pose proof (dateMonth_range d) as Hm.
  assert (Hmp : dateMonth d <= 2 <-> 10 <= monthIndex d).
  { unfold dateMonth. cbv zeta. pose proof (monthIndex_range d).
    destruct (Z.ltb_spec (monthIndex d) 10); lia. }
  destruct (Z.leb_spec (dateMonth d) 2) as [Hle|Hgt];
    [ assert (Hi : 10 <= monthIndex d) by (apply Hmp; lia)
    | assert (Hi : monthIndex d < 10) by lia ];
    clear Hmp Hm; revert Hi;
    unfold monthIndex, dayOfYear, yearOfEra, era, dayOfEra; cbv zeta;
    intros; Z.div_mod_to_equations; lia.
Qed.

Lemma days_range t :
  rfc3339.representable t -> -719528 <= days t <= 2932896.
Proof.
  intros [H _]. unfold days. Z.div_mod_to_equations; lia.
Qed.

Lemma clock_range t :
  0 <= Hour t <= 23 /\ 0 <= Minute t <= 59 /\ 0 <= Second t <= 59.
Proof.
  unfold Hour, Minute, Second, secOfDay.
  pose proof (Z.mod_pos_bound (abs t) 86400).
  Z.div_mod_to_equations; lia.
Qed.

End Calendar.

(** ** Timestamps written by [time] are RFC 3339 timestamps *)

Section Timestamps.

Import time.
Local Open Scope Z_scope.

Lemma digitValue_digit d :
  0 <= d <= 9 -> rfc3339.digitValue (digit d) = Some d.
Proof.
  intros Hd.
  assert (d = 0 \/ d = 1 \/ d = 2 \/ d = 3 \/ d = 4 \/ d = 5 \/ d = 6 \/
          d = 7 \/ d = 8 \/ d = 9) as Hc by lia.
  repeat (destruct Hc as [Hc | Hc]); subst d; reflexivity.
Qed.

Lemma num2_tens_ones u :
  0 <= u < 100 -> rfc3339.num2 (tens u) (ones u) = Some u.
Proof.
  intros Hu. unfold rfc3339.num2, tens, ones.
  rewrite !digitValue_digit by (Z.div_mod_to_equations; lia).
  f_equal. Z.div_mod_to_equations; lia.
Qed.

Lemma appendInt_two u :
  0 <= u < 100 ->
  appendInt u 2 = String (tens u) (String (ones u) EmptyString).
Proof.
  intros Hu. unfold appendInt. cbv zeta.
  rewrite Z.abs_eq by lia.
  destruct (Z.ltb_spec u 100); [|lia].
  destruct (Z.ltb_spec u 0); [lia|]. reflexivity.
Qed.

Lemma appendInt_four u :
  0 <= u < 10000 ->
  appendInt u 4 =
  String (tens (u / 100)) (String (ones (u / 100))
    (String (tens (u mod 100)) (String (ones (u mod 100)) EmptyString))).
Proof.
  intros Hu. unfold appendInt. cbv zeta.
  rewrite Z.abs_eq by lia.
  destruct (Z.ltb_spec u 10000); [|lia].
  destruct (Z.ltb_spec u 0); [lia|]. reflexivity.
Qed.

Lemma num4_year u :
  0 <= u < 10000 ->
  rfc3339.num4 (tens (u / 100)) (ones (u / 100))
               (tens (u mod 100)) (ones (u mod 100)) = Some u.
Proof.
  intros Hu. unfold rfc3339.num4.
  rewrite !num2_tens_ones by (Z.div_mod_to_equations; lia).
  f_equal. Z.div_mod_to_equations; lia.
Qed.

Lemma parseOffset_formatZone off :
  -86400 < off < 86400 ->
  rfc3339.parseOffset (formatZone off) = Some (Z.quot off 60).
Proof.
  intros Hoff. unfold formatZone.
  destruct (Z.eqb_spec off 0) as [->|Hnz]; [reflexivity|].
  cbv zeta.
  set (zone := Z.quot off 60).
  assert (Hz : -1440 < zone < 1440)
    by (subst zone; Z.to_euclidean_division_equations; lia).
  assert (Hh : 0 <= Z.abs zone / 60 <= 23) by (Z.div_mod_to_equations; lia).
  assert (Hm : 0 <= Z.abs zone mod 60 <= 59) by (Z.div_mod_to_equations; lia).
  rewrite !appendInt_two by lia.
  destruct (Z.ltb_spec zone 0) as [Hneg|Hpos]; cbn [append rfc3339.parseOffset];
    rewrite !num2_tens_ones by lia;
    destruct (Z.leb_spec (Z.abs zone / 60) 23); try lia;
    destruct (Z.leb_spec (Z.abs zone mod 60) 59); try lia;
    cbn [Ascii.eqb Bool.eqb andb]; f_equal;
    pose proof (Z.div_mod (Z.abs zone) 60); lia.
Qed.

(** Reading back what [Format] wrote gives the fields of the time. *)
Lemma parse_FormatRFC3339 t :
  rfc3339.representable t ->
  rfc3339.parse (FormatRFC3339 t) = Some (rfc3339.ofTime t).
Proof.
  intros Hrep.
  pose proof (days_range t Hrep) as Hd.
  pose proof (dateYear_range _ Hd) as Hy.
  pose proof (dateMonth_range (days t)) as Hmo.
  pose proof (dateDay_range (days t)) as Hday.
  pose proof (dateDay_daysIn (days t)) as Hdin.
  pose proof (clock_range t) as (Hh & Hmi & Hs).
  destruct Hrep as [_ Hoff].
  unfold FormatRFC3339, Year, Month, Day in *.
  rewrite appendInt_four by lia.
  rewrite !appendInt_two by lia.
  cbn [append rfc3339.parse].
  cbn [Ascii.eqb Bool.eqb andb].
  rewrite num4_year by lia.
  rewrite !num2_tens_ones by lia.
  rewrite parseOffset_formatZone by lia.
  unfold rfc3339.inRange. cbn [rfc3339.year rfc3339.month rfc3339.day
    rfc3339.hour rfc3339.minute rfc3339.second].
  repeat match goal with
         | |- context [?a <=? ?b] =>
             destruct (Z.leb_spec a b); [|lia]
         end.
  reflexivity.
Qed.

End Timestamps.

(** ** Timestamps identify the instant *)

Section Instants.

Import time.
Local Open Scope Z_scope.

Lemma daysFromCivil_date d :
  rfc3339.daysFromCivil (dateYear d) (dateMonth d) (dateDay d) = d.
Proof.
  unfold rfc3339.daysFromCivil, dateYear, dateDay, dateMonth.
  pose proof (yearOfEra_range d) as Hyoe.
  pose proof (monthIndex_range d) as Hmp.
  assert (Hdoy : dayOfYear d =
                 dayOfEra d - (365 * yearOfEra d + yearOfEra d / 4 - yearOfEra d / 100))
    by reflexivity.
  assert (Hdoe : d + 719468 = era d * 146097 + dayOfEra d).
  { unfold era, dayOfEra. pose proof (Z.div_mod (d + 719468) 146097). lia. }
  revert Hyoe Hmp Hdoy Hdoe.
  generalize (yearOfEra d) (monthIndex d) (dayOfYear d) (dayOfEra d) (era d).
  intros yoe mp doy doe e Hyoe Hmp Hdoy Hdoe. cbv zeta.
  destruct (Z.ltb_spec mp 10) as [Hlt|Hge].
  - destruct (Z.leb_spec (mp + 3) 2); [lia|].
    replace (yoe + e * 400 + 0) with (yoe + e * 400) by lia.
    replace ((yoe + e * 400) / 400) with e by (Z.div_mod_to_equations; lia).
    replace (mp + 3 - 3) with mp by lia.
    replace (yoe + e * 400 - e * 400) with yoe by lia.
    lia.
  - destruct (Z.leb_spec (mp - 9) 2); [|lia].
    replace (yoe + e * 400 + 1 - 1) with (yoe + e * 400) by lia.
    replace ((yoe + e * 400) / 400) with e by (Z.div_mod_to_equations; lia).
    replace (mp - 9 + 9) with mp by lia.
    replace (yoe + e * 400 - e * 400) with yoe by lia.
    lia.
Qed.

Lemma toTime_ofTime t :
  offset t mod 60 = 0 -> rfc3339.toTime (rfc3339.ofTime t) = t.
Proof.
  intros Hoff. destruct t as [u off]. cbn [offset] in Hoff.
  unfold rfc3339.toTime, rfc3339.ofTime.
  cbn [rfc3339.year rfc3339.month rfc3339.day rfc3339.hour rfc3339.minute
       rfc3339.second rfc3339.zone].
  unfold Year, Month, Day. rewrite daysFromCivil_date.
  unfold Hour, Minute, Second, days, secOfDay, abs. cbn [unixSec offset].
  assert (Hq : Z.quot off 60 * 60 = off).
  { pose proof (Z.quot_rem' off 60) as H1.
    assert (Z.rem off 60 = 0) by (apply Z.rem_divide; [lia|];
      apply Z.mod_divide; [lia|exact Hoff]).
    lia. }
  rewrite Hq. f_equal.
  remember (u + off) as a eqn:Ha. Z.div_mod_to_equations; lia.
Qed.

(** X14.  The timestamp of a time within years 0000 to 9999, in a zone
    of whole minutes less than a day from UTC, reads back to that very
    time: the two bounds in a notification identify their instants to
    the second. *)
Theorem FormatRFC3339_reads_back t :
  rfc3339.representable t ->
  offset t mod 60 = 0 ->
  rfc3339.read (FormatRFC3339 t) = Some t.
Proof.
  intros Hrep Hoff. unfold rfc3339.read.
  rewrite (parse_FormatRFC3339 t Hrep). cbn [option_map].
  rewrite (toTime_ofTime t Hoff). reflexivity.
Qed.

End Instants.

(** Unfolding the monad and splitting on the outcome of each call. *)

Ltac run :=
  unfold main.iteration, main.iterationUnescapeFirst, main.process, check, main.s3GetObject,
    main.slackPostWebhook, main.lgrError, main.lgrInfo, call, emit, bind, pure, return_, wrap.

Ltac atom x :=
  lazymatch x with
  | context [match _ with _ => _ end] => fail
  | _ => idtac
  end.

Ltac cases :=
  repeat (cbv beta iota;
          match goal with
          | |- context [match ?x with _ => _ end] => atom x; destruct x eqn:?
          end);
  cbv beta iota.

(** ** The loop of [Handler] *)

Section Handling.

Import main events.
Local Open Scope list_scope.

Context {World : Type} (env : Collaborators World).

Opaque messageText.

Lemma posts_app tr1 tr2 : posts (tr1 ++ tr2) = posts tr1 ++ posts tr2.
Proof.
  induction tr1 as [|ev tr1 IH]; [reflexivity|].
  destruct ev; cbn; rewrite IH; reflexivity.
Qed.

Lemma fetches_app tr1 tr2 : fetches (tr1 ++ tr2) = fetches tr1 ++ fetches tr2.
Proof.
  induction tr1 as [|ev tr1 IH]; [reflexivity|].
  destruct ev; cbn; rewrite IH; reflexivity.
Qed.

Lemma forRecords_app webhookURL pre post s :
  forRecords env webhookURL (pre ++ post) s =
  match forRecords env webhookURL pre s with
  | (Next _, s') => forRecords env webhookURL post s'
  | (Return err, s') => (Return err, s')
  end.
Proof.
  revert s. induction pre as [|rec pre IH]; intros s; [reflexivity|].
  cbn. unfold bind.
  destruct (iteration env webhookURL rec s) as [[[]|err] s']; [apply IH|reflexivity].
Qed.

Lemma finish_return (r : flow unit * State World) :
  finish (match r with
          | (Next _, s') => @return_ World Empty_set None s'
          | (Return err, s') => (Return err, s')
          end) = finish r.
Proof. destruct r as [[[]|err] s']; reflexivity. Qed.

(** The handler on a batch, split at any point of it. *)
Lemma Handler_past pre rest w :
  Handler env (mkS3Event (pre ++ rest)) w =
  match past env pre w with
  | (Next webhookURL, s1) => finish (forRecords env webhookURL rest s1)
  | (Return err, s1) => (err, s1)
  end.
Proof.
  unfold Handler, HandlerM, past, bind. cbn [Records].
  destruct (prologue env (mkState w [])) as [[webhookURL|err] s0]; [|reflexivity].
  rewrite forRecords_app.
  destruct (forRecords env webhookURL pre s0) as [[[]|err] s1]; [|reflexivity].
  unfold pure. apply finish_return.
Qed.

Lemma past_snoc pre rec w webhookURL s1 :
  past env pre w = (Next webhookURL, s1) ->
  past env (pre ++ [rec]) w =
  match iteration env webhookURL rec s1 with
  | (Next _, s2) => (Next webhookURL, s2)
  | (Return err, s2) => (Return err, s2)
  end.
Proof.
  unfold past, bind.
  destruct (prologue env (mkState w [])) as [[u|err] s0]; [|discriminate].
  rewrite forRecords_app.
  destruct (forRecords env u pre s0) as [[[]|err] s']; [|discriminate].
  unfold pure. intros [= -> ->]. cbn. unfold bind.
  destruct (iteration env webhookURL rec s1) as [[[]|err] s2]; reflexivity.
Qed.

Lemma iteration_skip webhookURL rec s :
  strings.HasPrefix (Key (Object (S3 rec))) prefix = false ->
  iteration env webhookURL rec s =
  (Next tt, mkState (world s) (trace s ++ [skipLog (Key (Object (S3 rec)))])).
Proof. intros H. unfold iteration. rewrite H. reflexivity. Qed.

Lemma iteration_accepted webhookURL rec s :
  strings.HasPrefix (Key (Object (S3 rec))) prefix = true ->
  iteration env webhookURL rec s =
  match url.PathUnescape (Key (Object (S3 rec))) with
  | inl err => (Return (Some err), s)
  | inr key => process env webhookURL (Name (Bucket (S3 rec))) key s
  end.
Proof.
  intros H. unfold iteration. rewrite H. cbn [negb]. unfold bind, check.
  destruct (url.PathUnescape (Key (Object (S3 rec)))); reflexivity.
Qed.

(** The first thing [process] does is fetch the object under the key
    it was given. *)
Lemma process_fetches_first webhookURL bucket key s :
  exists evs,
    trace (snd (process env webhookURL bucket key s)) =
    trace s ++ EvGetObject bucket key :: evs.
Proof.
  run. cases; cbn; rewrite <- ?app_assoc; cbn; eauto.
Qed.

Lemma iteration_no_certificate webhookURL rec s key entry w' :
  reachesEntry env rec (world s) key entry w' ->
  ct.X509Cert entry = None ->
  iteration env webhookURL rec s =
  (Return None,
   mkState w' (trace s ++
     [EvGetObject (Name (Bucket (S3 rec))) key;
      EvCloseBody (Name (Bucket (S3 rec))) key;
      EvLog LevelError "expected x509 cert but got none" [("key", AStr key)]])).
Proof.
  intros [k body w1 leaf e Hp Hu Hg Hd Hl] Hx.
  rewrite iteration_accepted, Hu by assumption.
  run. rewrite Hg. cbn. rewrite Hd. cbn. rewrite Hl. cbn. rewrite Hx. cbn.
  rewrite <- !app_assoc. reflexivity.
Qed.

Lemma iteration_delivers webhookURL rec s key text w' :
  reachesDelivery env rec (world s) key text w' ->
  iteration env webhookURL rec s =
  let called := trace s ++
     [EvGetObject (Name (Bucket (S3 rec))) key;
      EvCloseBody (Name (Bucket (S3 rec))) key;
      EvPostWebhook webhookURL text] in
  match PostWebhook env webhookURL text w' with
  | (Some msg, w'') =>
      (Next tt, mkState w'' (called ++
         [EvLog LevelError "slack_webhook_err" [("err", AErr (WebhookError msg))]]))
  | (None, w'') => (Next tt, mkState w'' called)
  end.
Proof.
  intros [k entry w1 leafCert cert txt [k' body w2 leaf e Hp Hu Hg Hd Hl] Hx Hc Ht].
  rewrite iteration_accepted, Hu by assumption.
  run. rewrite Hg. cbn. rewrite Hd. cbn. rewrite Hl. cbn. rewrite Hx. cbn.
  rewrite Hc. cbn. rewrite Ht. cbn.
  destruct (PostWebhook env webhookURL (messageText k' cert txt) w2) as [[msg|] w3];
    cbn; rewrite <- !app_assoc; reflexivity.
Qed.

Lemma iteration_fails webhookURL rec s e :
  failsWith env rec (world s) e ->
  exists s',
    iteration env webhookURL rec s = (Return (Some e), s') /\
    posts (trace s') = posts (trace s).
Proof.
  intros H.
  destruct H as [e Hp Hu
                |key msg w' Hp Hu Hg
                |key body w' msg Hp Hu Hg Hd
                |key body w' leaf msg Hp Hu Hg Hd Hl
                |key entry w' leafCert msg [k body w1 leaf en Hp Hu Hg Hd Hl] Hx Hc];
    rewrite iteration_accepted, Hu by assumption.
  - exists s. split; reflexivity.
  - run. rewrite Hg. cbn. eexists. split; [reflexivity|].
    cbn. rewrite !posts_app. cbn. rewrite !app_nil_r. reflexivity.
  - run. rewrite Hg. cbn. rewrite Hd. cbn. eexists. split; [reflexivity|].
    cbn. rewrite !posts_app. cbn. rewrite !app_nil_r. reflexivity.
  - run. rewrite Hg. cbn. rewrite Hd. cbn. rewrite Hl. cbn.
    eexists. split; [reflexivity|].
    cbn. rewrite !posts_app. cbn. rewrite !app_nil_r. reflexivity.
  - run. rewrite Hg. cbn. rewrite Hd. cbn. rewrite Hl. cbn. rewrite Hx. cbn.
    rewrite Hc. cbn. eexists. split; [reflexivity|].
    cbn. rewrite !posts_app. cbn. rewrite !app_nil_r. reflexivity.
Qed.

(** [url.PathUnescape] fails with an [EscapeError] only. *)
Lemma PathUnescape_error k e :
  url.PathUnescape k = inl e -> exists bad, e = EscapeError bad.
Proof.
  remember (String.length k) as n eqn:Hn.
  assert (Hle : (String.length k <= n)%nat) by (subst; constructor).
  clear Hn. revert k e Hle.
  induction n as [|n IH]; intros k e Hle; destruct k as [|c k]; cbn in *;
    try discriminate; try (exfalso; inversion Hle; fail).
  apply le_S_n in Hle.
  cases; intros H; try discriminate; inversion H; subst; eauto;
    (eapply IH; [|eassumption]; cbn in *; lia).
Qed.

(** Whatever error the loop body returns comes from a step before
    delivery. *)
Lemma iteration_returns webhookURL rec s e s' :
  iteration env webhookURL rec s = (Return (Some e), s') ->
  fromPipeline e = true.
Proof.
  run. cases; intros H; cbn in *; try discriminate;
    repeat match goal with
           | H : (_, _) = (_, _) |- _ => inversion H; clear H; subst
           | H : inl _ = inl _ |- _ => inversion H; clear H; subst
           | H : inr _ = inr _ |- _ => inversion H; clear H; subst
           end; try reflexivity; try discriminate.
  match goal with
  | H : url.PathUnescape _ = inl _ |- _ =>
      destruct (PathUnescape_error _ _ H) as [bad ->]
  end.
  reflexivity.
Qed.

Lemma forRecords_returns webhookURL recs s e s' :
  forRecords env webhookURL recs s = (Return (Some e), s') ->
  fromPipeline e = true.
Proof.
  revert s. induction recs as [|rec recs IH]; intros s; cbn; [discriminate|].
  unfold bind. destruct (iteration env webhookURL rec s) as [[[]|err] s1] eqn:E.
  - apply IH.
  - intros [= -> ->]. eapply iteration_returns; eassumption.
Qed.

(** The errors [Handler] can return: one of the configuration, or one
    of the steps before delivery. *)
Lemma Handler_returns evt w e :
  fst (Handler env evt w) = Some e ->
  (exists msg, e = ConfigError msg) \/ fromPipeline e = true.
Proof.
  unfold Handler, HandlerM, prologue, bind, call, return_, pure, lgrError, emit.
  destruct (LoadDefaultConfig env (world (mkState w []))) as [[msg|] w1]; cbn.
  - intros [= <-]. left. eauto.
  - destruct (ParamGet env "webhook_url" w1) as [[u [msg|]] w2]; cbn;
      match goal with
      | |- context [forRecords env u ?recs ?s] =>
          destruct (forRecords env u recs s) as [[[]|[err|]] s'] eqn:E
      end; cbn; try discriminate;
      intros [= <-]; right; eapply forRecords_returns; eassumption.
Qed.



(** *** Claims about the batch policy *)

(** C5.  A key that does not begin with the prefix costs one info
    line and nothing else: the handler goes past it without an error,
    the world is untouched (no fetch, no notification), and the
    handler's outcome is that of going on with the rest of the
    batch. *)
Theorem C5_key_outside_prefix_is_skipped pre rec post w webhookURL s1 :
  past env pre w = (Next webhookURL, s1) ->
  strings.HasPrefix (Key (Object (S3 rec))) prefix = false ->
  let s2 := mkState (world s1) (trace s1 ++ [skipLog (Key (Object (S3 rec)))]) in
  past env (pre ++ [rec]) w = (Next webhookURL, s2) /\
  fetches (trace s2) = fetches (trace s1) /\
  posts (trace s2) = posts (trace s1) /\
  Handler env (mkS3Event (pre ++ rec :: post)) w =
    finish (forRecords env webhookURL post s2).
Proof.
  intros Hpast Hprefix s2.
  pose proof (iteration_skip webhookURL rec s1 Hprefix) as Hit.
  split; [|split; [|split]].
  - rewrite (past_snoc _ _ _ _ _ Hpast), Hit. reflexivity.
  - subst s2. cbn. rewrite fetches_app. cbn. apply app_nil_r.
  - subst s2. cbn. rewrite posts_app. cbn. apply app_nil_r.
  - rewrite Handler_past, Hpast. cbn. unfold bind. rewrite Hit. reflexivity.
Qed.

(** C10.  When the handler reaches a record whose log entry carries no
    X.509 certificate it returns nil there: the outcome is the same
    whatever records follow, and the trace ends with the fetch of that
    record and the line logged for it. *)
Theorem C10_no_certificate_returns_nil pre rec post w webhookURL s1 key entry w' :
  past env pre w = (Next webhookURL, s1) ->
  reachesEntry env rec (world s1) key entry w' ->
  ct.X509Cert entry = None ->
  Handler env (mkS3Event (pre ++ rec :: post)) w =
  (None,
   mkState w' (trace s1 ++
     [EvGetObject (Name (Bucket (S3 rec))) key;
      EvCloseBody (Name (Bucket (S3 rec))) key;
      EvLog LevelError "expected x509 cert but got none" [("key", AStr key)]])).
Proof.
  intros Hpast Hreach Hnone.
  rewrite Handler_past, Hpast. cbn. unfold bind.
  rewrite (iteration_no_certificate webhookURL rec s1 key entry w' Hreach Hnone).
  reflexivity.
Qed.

(** C2.  When unescaping, retrieval, decoding, reconstruction or
    certificate parsing fails for a record the handler has reached,
    the handler returns that error, the outcome does not depend on the
    records after it, and no notification is posted beyond those of
    the records before it. *)
Theorem C2_pipeline_error_aborts_batch pre rec post w webhookURL s1 e :
  past env pre w = (Next webhookURL, s1) ->
  failsWith env rec (world s1) e ->
  fst (Handler env (mkS3Event (pre ++ rec :: post)) w) = Some e /\
  posts (trace (snd (Handler env (mkS3Event (pre ++ rec :: post)) w))) =
    posts (trace s1) /\
  Handler env (mkS3Event (pre ++ rec :: post)) w =
    Handler env (mkS3Event (pre ++ [rec])) w.
Proof.
  intros Hpast Hfail.
  destruct (iteration_fails webhookURL rec s1 e Hfail) as (s2 & Hit & Hposts).
  rewrite !Handler_past, Hpast. cbn. unfold bind. rewrite Hit. cbn.
  auto.
Qed.

(** C6.  When posting the notification of a record fails, the failure
    is logged and the handler goes past the record: its outcome is
    that of going on with the rest of the batch.  No batch makes the
    handler return an error of the transport. *)
Theorem C6_delivery_failure_is_not_fatal pre rec post w webhookURL s1 key text w' msg w'' :
  past env pre w = (Next webhookURL, s1) ->
  reachesDelivery env rec (world s1) key text w' ->
  PostWebhook env webhookURL text w' = (Some msg, w'') ->
  let s2 := mkState w'' (trace s1 ++
     [EvGetObject (Name (Bucket (S3 rec))) key;
      EvCloseBody (Name (Bucket (S3 rec))) key;
      EvPostWebhook webhookURL text;
      EvLog LevelError "slack_webhook_err" [("err", AErr (WebhookError msg))]]) in
  past env (pre ++ [rec]) w = (Next webhookURL, s2) /\
  Handler env (mkS3Event (pre ++ rec :: post)) w =
    finish (forRecords env webhookURL post s2) /\
  (forall evt w0 m, fst (Handler env evt w0) <> Some (WebhookError m)).
Proof.
  intros Hpast Hreach Hpost s2.
  pose proof (iteration_delivers webhookURL rec s1 key text w' Hreach) as Hit.
  cbv zeta in Hit. rewrite Hpost in Hit.
  rewrite <- app_assoc in Hit. cbn [app] in Hit.
  split; [|split].
  - rewrite (past_snoc _ _ _ _ _ Hpast), Hit. reflexivity.
  - rewrite Handler_past, Hpast. cbn. unfold bind. rewrite Hit. reflexivity.
  - intros evt w0 m H. apply Handler_returns in H.
    destruct H as [[m' H]|H]; discriminate.
Qed.

(** The handler past the setup after a failed lookup of the address. *)
Lemma past_setup_address_failure w w1 w2 webhookURL msg :
  LoadDefaultConfig env w = (None, w1) ->
  ParamGet env "webhook_url" w1 = ((webhookURL, Some msg), w2) ->
  past env [] w =
  (Next webhookURL,
   mkState w2 [EvLoadConfig; EvGetParam "webhook_url";
               EvLog LevelError "get_webhook_url_err"
                     [("err", AErr (ParamError msg))]]).
Proof.
  intros Hcfg Hget.
  unfold past, prologue, bind, call, lgrError, emit, pure. cbn.
  rewrite Hcfg. cbn. rewrite Hget. reflexivity.
Qed.

(** The address the handler works with does not change along the
    batch. *)
Lemma past_address pre w u0 s0 u s :
  past env [] w = (Next u0, s0) ->
  past env pre w = (Next u, s) -> u = u0.
Proof.
  unfold past, bind. cbn [forRecords]. unfold pure.
  destruct (prologue env (mkState w [])) as [[a|err] t]; [|discriminate].
  intros [= -> ->].
  destruct (forRecords env u0 pre s0) as [[[]|err] t']; [|discriminate].
  intros [= -> _]. reflexivity.
Qed.

(** A record the handler reaches and that goes through to its message:
    the post is made, to the handler's address, and the handler goes
    on with the records after it. *)
Lemma past_delivers pre rec post w webhookURL s1 key text w' :
  past env pre w = (Next webhookURL, s1) ->
  reachesDelivery env rec (world s1) key text w' ->
  exists s2,
    past env (pre ++ [rec]) w = (Next webhookURL, s2) /\
    fetches (trace s2) =
      fetches (trace s1) ++ [(Name (Bucket (S3 rec)), key)] /\
    posts (trace s2) = posts (trace s1) ++ [(webhookURL, text)] /\
    Handler env (mkS3Event (pre ++ rec :: post)) w =
      finish (forRecords env webhookURL post s2).
Proof.
  intros Hpast Hreach.
  pose proof (iteration_delivers webhookURL rec s1 key text w' Hreach) as Hit.
  cbv zeta in Hit.
  destruct (PostWebhook env webhookURL text w') as [[m|] w''];
    eexists; (split; [rewrite (past_snoc _ _ _ _ _ Hpast), Hit; reflexivity|]);
    cbn [trace]; rewrite !fetches_app, !posts_app; cbn [fetches posts];
    rewrite ?app_nil_r;
    (split; [reflexivity|]); (split; [reflexivity|]);
    rewrite Handler_past, Hpast; cbn [forRecords]; unfold bind; rewrite Hit;
    reflexivity.
Qed.

(** When every record goes through in its turn, the handler gets past
    any beginning of the batch with one post per record. *)
Lemma past_all_delivered recs w webhookURL s0 :
  past env [] w = (Next webhookURL, s0) ->
  posts (trace s0) = [] ->
  (forall pre rec post u s1,
      recs = pre ++ rec :: post ->
      past env pre w = (Next u, s1) ->
      exists key text w', reachesDelivery env rec (world s1) key text w') ->
  forall pre rest,
    recs = pre ++ rest ->
    exists s,
      past env pre w = (Next webhookURL, s) /\
      map fst (posts (trace s)) = map (fun _ => webhookURL) pre.
Proof.
  intros Hsetup Hposts0 Hall pre.
  induction pre as [|rec pre IH] using rev_ind; intros rest Hrecs.
  - exists s0. rewrite Hposts0. auto.
  - rewrite <- app_assoc in Hrecs. cbn [app] in Hrecs.
    destruct (IH _ Hrecs) as (s1 & Hpast & Hmap).
    destruct (Hall pre rec rest webhookURL s1 Hrecs Hpast) as (key & text & w' & Hreach).
    destruct (past_delivers pre rec rest w webhookURL s1 key text w' Hpast Hreach)
      as (s2 & Hpast2 & _ & Hposts2 & _).
    exists s2. split; [exact Hpast2|].
    rewrite Hposts2, !map_app, Hmap. reflexivity.
Qed.

(** C7.  When the lookup of the webhook address fails, the failure is
    logged and the handler runs the loop over all records with the
    address the lookup gave.  Every record of the batch that the
    handler reaches and that goes through to its message is fetched
    and posted to that address, and the handler goes on with the
    records after it; when every record goes through in its turn the
    handler returns nil with one post per record, in batch order, all
    to that address.  No batch makes the handler return an error of
    the lookup. *)
Theorem C7_address_failure_is_not_fatal evt w w1 w2 webhookURL msg :
  LoadDefaultConfig env w = (None, w1) ->
  ParamGet env "webhook_url" w1 = ((webhookURL, Some msg), w2) ->
  Handler env evt w =
    finish (forRecords env webhookURL (Records evt)
              (mkState w2 [EvLoadConfig; EvGetParam "webhook_url";
                           EvLog LevelError "get_webhook_url_err"
                                 [("err", AErr (ParamError msg))]])) /\
  (forall rec s key text w',
      reachesDelivery env rec (world s) key text w' ->
      exists s', iteration env webhookURL rec s = (Next tt, s') /\
                 posts (trace s') = posts (trace s) ++ [(webhookURL, text)]) /\
  (forall evt0 w0 m, fst (Handler env evt0 w0) <> Some (ParamError m)) /\
  (forall pre rec post u s1 key text w',
      Records evt = pre ++ rec :: post ->
      past env pre w = (Next u, s1) ->
      reachesDelivery env rec (world s1) key text w' ->
      u = webhookURL /\
      exists s2,
        past env (pre ++ [rec]) w = (Next webhookURL, s2) /\
        fetches (trace s2) =
          fetches (trace s1) ++ [(Name (Bucket (S3 rec)), key)] /\
        posts (trace s2) = posts (trace s1) ++ [(webhookURL, text)] /\
        Handler env evt w = finish (forRecords env webhookURL post s2)) /\
  ((forall pre rec post u s1,
       Records evt = pre ++ rec :: post ->
       past env pre w = (Next u, s1) ->
       exists key text w', reachesDelivery env rec (world s1) key text w') ->
   fst (Handler env evt w) = None /\
   map fst (posts (trace (snd (Handler env evt w)))) =
     map (fun _ => webhookURL) (Records evt)).
Proof.
  intros Hcfg Hget.
  pose proof (past_setup_address_failure w w1 w2 webhookURL msg Hcfg Hget) as Hsetup.
  split; [|split; [|split; [|split]]].
  - unfold Handler, HandlerM, prologue, bind, call, lgrError, emit, pure.
    cbn. rewrite Hcfg. cbn. rewrite Hget. cbn. apply finish_return.
  - intros rec s key text w' Hreach.
    rewrite (iteration_delivers webhookURL rec s key text w' Hreach). cbv zeta.
    destruct (PostWebhook env webhookURL text w') as [[m|] w3];
      eexists; (split; [reflexivity|]); cbn;
      rewrite !posts_app; cbn; rewrite ?app_nil_r; reflexivity.
  - intros evt0 w0 m H. apply Handler_returns in H.
    destruct H as [[m' H]|H]; discriminate.
  - intros pre rec post u s1 key text w' Hrecs Hpast Hreach.
    assert (Hu : u = webhookURL) by exact (past_address pre w _ _ _ _ Hsetup Hpast).
    subst u. split; [reflexivity|].
    destruct evt as [recs]. cbn [Records] in Hrecs. subst recs.
    exact (past_delivers pre rec post w webhookURL s1 key text w' Hpast Hreach).
  - intros Hall. destruct evt as [recs]. cbn [Records] in *.
    destruct (past_all_delivered recs w webhookURL _ Hsetup eq_refl Hall recs []
                (eq_sym (app_nil_r recs))) as (s & Hpast & Hmap).
    pose proof (Handler_past recs [] w) as Hrun.
    rewrite app_nil_r, Hpast in Hrun. rewrite Hrun.
    cbn. split; [reflexivity|exact Hmap].
Qed.

(** C3, as the code has it.  The prefix is tested on the key as the
    event gives it; a key without it is skipped with an info line and
    never unescaped.  Only an accepted key is unescaped; a failure
    there is returned at once, and otherwise the load, extract, format
    and deliver steps run on the unescaped key, beginning with the
    fetch of the object under it. *)
Theorem C3_prefix_test_precedes_unescaping webhookURL rec s :
  iteration env webhookURL rec s =
  (if strings.HasPrefix (Key (Object (S3 rec))) prefix then
     match url.PathUnescape (Key (Object (S3 rec))) with
     | inl err => (Return (Some err), s)
     | inr key => process env webhookURL (Name (Bucket (S3 rec))) key s
     end
   else
     (Next tt, mkState (world s) (trace s ++ [skipLog (Key (Object (S3 rec)))]))) /\
  (forall bucket key, exists evs,
      trace (snd (process env webhookURL bucket key s)) =
      trace s ++ EvGetObject bucket key :: evs).
Proof.
  split.
  - destruct (strings.HasPrefix (Key (Object (S3 rec))) prefix) eqn:Hp.
    + apply iteration_accepted, Hp.
    + apply iteration_skip, Hp.
  - intros bucket key. apply process_fetches_first.
Qed.

Transparent messageText.

End Handling.

(** ** The text of the notification *)

Section Notification.

Import main events.
Local Open Scope list_scope.

Lemma HasPrefix_app s t sub :
  strings.HasPrefix s sub = true -> strings.HasPrefix (s ++ t)%string sub = true.
Proof.
  revert s. induction sub as [|p sub IH]; intros s; [intros _; reflexivity|].
  destruct s as [|c s]; cbn; [discriminate|].
  intros H. apply andb_true_iff in H as [Hc Hs].
  rewrite Hc. cbn. apply IH, Hs.
Qed.

Lemma Contains_app s t sub :
  strings.Contains s sub = true -> strings.Contains (s ++ t)%string sub = true.
Proof.
  induction s as [|c s IH]; cbn.
  - rewrite orb_false_r. destruct sub; [|discriminate].
    intros _. destruct t; reflexivity.
  - intros H. apply orb_true_iff in H as [H|H].
    + change (String c (s ++ t)%string) with (String c s ++ t)%string.
      rewrite (HasPrefix_app _ _ _ H). reflexivity.
    + rewrite (IH H). apply orb_true_r.
Qed.

Lemma Join_concat elems sep : strings.Join elems sep = String.concat sep elems.
Proof.
  induction elems as [|e rest IH]; [reflexivity|].
  cbn. destruct rest; [reflexivity|]. rewrite IH. reflexivity.
Qed.

(** The message, piece by piece. *)
Lemma messageText_fields key cert certInfoTxt :
  messageText key cert certInfoTxt =
  ("*New Certificate Detected*" ++ nl ++ nl ++
   "*Key:* " ++ key ++ nl ++
   "*DNS Names:* " ++ String.concat ", " (x509.DNSNames cert) ++ nl ++
   "*Not Before:* " ++ time.FormatRFC3339 (x509.NotBefore cert) ++ nl ++
   "*Not After:* " ++ time.FormatRFC3339 (x509.NotAfter cert) ++ nl ++ nl ++
   "*Certificate Details:*" ++ nl ++
   "```" ++ certInfoTxt ++ "```")%string.
Proof.
  unfold messageText. rewrite Join_concat.
  generalize (String.concat ", " (x509.DNSNames cert)).
  generalize (time.FormatRFC3339 (x509.NotBefore cert)).
  generalize (time.FormatRFC3339 (x509.NotAfter cert)).
  intros na nb dns. reflexivity.
Qed.


Context {World : Type} (env : Collaborators World).

Lemma past_nil_posts w webhookURL s1 :
  past env [] w = (Next webhookURL, s1) -> posts (trace s1) = [].
Proof.
  unfold past, prologue, bind, call, lgrError, emit, pure, return_. cbn.
  destruct (LoadDefaultConfig env w) as [[msg|] w1]; cbn; [discriminate|].
  destruct (ParamGet env "webhook_url" w1) as [[u [msg|]] w2]; cbn;
    intros [= <- <-]; reflexivity.
Qed.

(** C4.  For a record whose entry embeds a certificate that parses,
    the loop body posts one notification: the fixed template around
    the key, the DNS names of the certificate joined in their order
    by a comma and a space (nothing when there is none), the two
    validity bounds, and the certificate text.  Each bound is an
    RFC 3339 timestamp with the fields of the time, and for a bound in
    a zone of whole minutes (a certificate's bounds are in UTC) the
    timestamp reads back to the bound itself, instant and zone. *)
Theorem C4_notification_fields webhookURL rec s key entry w' leafCert cert certInfoTxt :
  reachesEntry env rec (world s) key entry w' ->
  ct.X509Cert entry = Some leafCert ->
  ParseCertificate env (ct.Raw leafCert) = inr cert ->
  CertificateText env cert = inr certInfoTxt ->
  rfc3339.representable (x509.NotBefore cert) ->
  rfc3339.representable (x509.NotAfter cert) ->
  let dnsNames := String.concat ", " (x509.DNSNames cert) in
  let notBefore := time.FormatRFC3339 (x509.NotBefore cert) in
  let notAfter := time.FormatRFC3339 (x509.NotAfter cert) in
  posts (trace (snd (iteration env webhookURL rec s))) =
    posts (trace s) ++
    [(webhookURL,
      ("*New Certificate Detected*" ++ nl ++ nl ++
       "*Key:* " ++ key ++ nl ++
       "*DNS Names:* " ++ dnsNames ++ nl ++
       "*Not Before:* " ++ notBefore ++ nl ++
       "*Not After:* " ++ notAfter ++ nl ++ nl ++
       "*Certificate Details:*" ++ nl ++
       "```" ++ certInfoTxt ++ "```")%string)] /\
  (x509.DNSNames cert = [] -> dnsNames = "") /\
  rfc3339.parse notBefore = Some (rfc3339.ofTime (x509.NotBefore cert)) /\
  rfc3339.parse notAfter = Some (rfc3339.ofTime (x509.NotAfter cert)) /\
  (time.offset (x509.NotBefore cert) mod 60 = 0 ->
   rfc3339.read notBefore = Some (x509.NotBefore cert))%Z /\
  (time.offset (x509.NotAfter cert) mod 60 = 0 ->
   rfc3339.read notAfter = Some (x509.NotAfter cert))%Z.
Proof.
  intros Hreach Hx Hc Ht Hnb Hna dnsNames notBefore notAfter.
  assert (Hdel : reachesDelivery env rec (world s) key
                   (messageText key cert certInfoTxt) w')
    by (econstructor; eassumption).
  split; [|split; [|split; [|split; [|split]]]].
  - rewrite (iteration_delivers env webhookURL rec s _ _ _ Hdel). cbv zeta.
    subst dnsNames notBefore notAfter.
    rewrite <- messageText_fields.
    destruct (PostWebhook env webhookURL (messageText key cert certInfoTxt) w')
      as [[msg|] w'']; cbn [snd trace];
      rewrite !posts_app; cbn [posts]; rewrite ?app_nil_r; reflexivity.
  - subst dnsNames. intros ->. reflexivity.
  - apply parse_FormatRFC3339, Hnb.
  - apply parse_FormatRFC3339, Hna.
  - intros Hzone. subst notBefore. unfold rfc3339.read.
    rewrite (parse_FormatRFC3339 _ Hnb). cbn [option_map].
    rewrite (toTime_ofTime _ Hzone). reflexivity.
  - intros Hzone. subst notAfter. unfold rfc3339.read.
    rewrite (parse_FormatRFC3339 _ Hna). cbn [option_map].
    rewrite (toTime_ofTime _ Hzone). reflexivity.
Qed.

(** C8, as the code has it.  In the scenario the handler posts one
    notification, and its text carries each label inside the
    emphasis marks of the template, followed by the value. *)
Theorem C8_scenario_notification w webhookURL s1 bucket entry w' leafCert cert certInfoTxt :
  past env [] w = (Next webhookURL, s1) ->
  reachesEntry env (record bucket "certs/abc.json") (world s1)
               "certs/abc.json" entry w' ->
  ct.X509Cert entry = Some leafCert ->
  ParseCertificate env (ct.Raw leafCert) = inr cert ->
  CertificateText env cert = inr certInfoTxt ->
  x509.DNSNames cert = ["a.example.com"; "b.example.com"] ->
  x509.NotBefore cert = time.UTC 1704067200 ->
  x509.NotAfter cert = time.UTC 1735689600 ->
  exists text,
    posts (trace (snd (Handler env (mkS3Event [record bucket "certs/abc.json"]) w))) =
      [(webhookURL, text)] /\
    strings.Contains text "*DNS Names:* a.example.com, b.example.com" = true /\
    strings.Contains text "*Not Before:* 2024-01-01T00:00:00Z" = true /\
    strings.Contains text "*Not After:* 2025-01-01T00:00:00Z" = true.
Proof.
  intros Hpast Hreach Hx Hc Ht Hdns Hnb Hna.
  assert (Hdel : reachesDelivery env (record bucket "certs/abc.json") (world s1)
                   "certs/abc.json"
                   (messageText "certs/abc.json" cert certInfoTxt) w')
    by (econstructor; eassumption).
  exists (messageText "certs/abc.json" cert certInfoTxt). split.
  - change [record bucket "certs/abc.json"]
      with ([] ++ [record bucket "certs/abc.json"]).
    rewrite Handler_past, Hpast. cbn [forRecords]. unfold bind.
    rewrite (iteration_delivers env webhookURL _ s1 _ _ _ Hdel). cbv zeta.
    destruct (PostWebhook env webhookURL
                (messageText "certs/abc.json" cert certInfoTxt) w')
      as [[msg|] w'']; cbn [pure finish snd trace];
      rewrite !posts_app, (past_nil_posts _ _ _ Hpast); reflexivity.
  - rewrite messageText_fields, Hdns, Hnb, Hna.
    replace (time.FormatRFC3339 (time.UTC 1704067200))
      with "2024-01-01T00:00:00Z" by (vm_compute; reflexivity).
    replace (time.FormatRFC3339 (time.UTC 1735689600))
      with "2025-01-01T00:00:00Z" by (vm_compute; reflexivity).
    pose (head := ("*New Certificate Detected*" ++ nl ++ nl ++
                   "*Key:* certs/abc.json" ++ nl ++
                   "*DNS Names:* a.example.com, b.example.com" ++ nl ++
                   "*Not Before:* 2024-01-01T00:00:00Z" ++ nl ++
                   "*Not After:* 2025-01-01T00:00:00Z" ++ nl ++ nl ++
                   "*Certificate Details:*" ++ nl ++ "```")%string).
    repeat split;
      (apply (Contains_app head (certInfoTxt ++ "```")%string);
       vm_compute; reflexivity).
Qed.

Opaque messageText.

(** C9.  The texts a record makes the handler post depend on the
    unescaped key and the bytes of the leaf entry only: two runs of
    the loop body that unescape to the same key and fetch the same
    bytes post the same texts, whatever the world, the bucket, the
    spelling of the key and the webhook address of each run. *)
Theorem C9_same_entry_same_text webhookURL1 webhookURL2 rec1 rec2 w1 w2 key body w1' w2' :
  strings.HasPrefix (Key (Object (S3 rec1))) prefix = true ->
  strings.HasPrefix (Key (Object (S3 rec2))) prefix = true ->
  url.PathUnescape (Key (Object (S3 rec1))) = inr key ->
  url.PathUnescape (Key (Object (S3 rec2))) = inr key ->
  GetObject env (Name (Bucket (S3 rec1))) key w1 = (inr body, w1') ->
  GetObject env (Name (Bucket (S3 rec2))) key w2 = (inr body, w2') ->
  map snd (posts (trace (snd (iteration env webhookURL1 rec1 (mkState w1 []))))) =
  map snd (posts (trace (snd (iteration env webhookURL2 rec2 (mkState w2 []))))).
Proof.
  intros Hp1 Hp2 Hu1 Hu2 Hg1 Hg2.
  rewrite !iteration_accepted, Hu1, Hu2 by assumption.
  run. cbn [world trace]. rewrite Hg1, Hg2.
  cases; reflexivity.
Qed.

Transparent messageText.

End Notification.

(** ** Runs of the handler on the test double *)

Section Runs.

Import main events fixture.
Local Open Scope list_scope.

(** C1.  A precertificate entry ahead of a certificate entry: the
    handler returns nil after the first record, and the second is
    neither fetched nor announced, although alone it is announced. *)
Theorem C1_precertificate_ends_batch :
  let run := Handler env (batch ["certs/pre.json"; "certs/abc.json"]) healthy in
  fst run = None /\
  fetches (trace (snd run)) = [("ct", "certs/pre.json")] /\
  posts (trace (snd run)) = [] /\
  List.length (posts (trace (snd (Handler env (batch ["certs/abc.json"]) healthy)))) = 1%nat.
Proof. vm_compute. repeat split. Qed.

(** C3, as stated, fails: the key [certs%2Fabc.json] unescapes to a
    key with the prefix, so unescaping first would fetch it, whereas
    the loop body skips it. *)
Lemma C3_unescape_first_differs :
  iteration env hook (record "ct" "certs%2Fabc.json") (mkState healthy []) <>
  iterationUnescapeFirst env hook (record "ct" "certs%2Fabc.json") (mkState healthy []).
Proof. vm_compute. discriminate. Qed.

(** C8, as stated, fails: the one notification of the scenario has
    none of the three plain substrings, the labels being closed by an
    emphasis mark before the space. *)
Lemma C8_plain_labels_absent :
  exists text,
    posts (trace (snd (Handler env (batch ["certs/abc.json"]) healthy))) = [(hook, text)] /\
    strings.Contains text "DNS Names: a.example.com, b.example.com" = false /\
    strings.Contains text "Not Before: 2024-01-01T00:00:00Z" = false /\
    strings.Contains text "Not After: 2025-01-01T00:00:00Z" = false.
Proof. eexists. vm_compute. repeat split. Qed.

Lemma C5_witness :
  let s1 := snd (past env [abc] healthy) in
  let s2 := mkState (world s1) (trace s1 ++ [skipLog "other/abc.json"]) in
  past env ([abc] ++ [record "ct" "other/abc.json"]) healthy = (Next hook, s2) /\
  fetches (trace s2) = fetches (trace s1) /\
  posts (trace s2) = posts (trace s1) /\
  Handler env (mkS3Event ([abc] ++ record "ct" "other/abc.json" :: [def])) healthy =
    finish (forRecords env hook [def] s2).
Proof.
  apply (C5_key_outside_prefix_is_skipped env [abc] (record "ct" "other/abc.json")
           [def] healthy hook (snd (past env [abc] healthy))); reflexivity.
Defined.

Lemma C10_witness :
  let s1 := snd (past env [abc] healthy) in
  Handler env (mkS3Event ([abc] ++ record "ct" "certs/pre.json" :: [def])) healthy =
  (None,
   mkState (world s1) (trace s1 ++
     [EvGetObject "ct" "certs/pre.json";
      EvCloseBody "ct" "certs/pre.json";
      EvLog LevelError "expected x509 cert but got none"
            [("key", AStr "certs/pre.json")]])).
Proof.
  apply (C10_no_certificate_returns_nil env [abc] (record "ct" "certs/pre.json")
           [def] healthy hook (snd (past env [abc] healthy)) "certs/pre.json"
           (ct.mkLogEntry 0 None)).
  - reflexivity.
  - eapply reaches_entry; reflexivity.
  - reflexivity.
Defined.

Lemma C2_witness :
  let batch := mkS3Event ([abc] ++ record "ct" "certs/cut.json" :: [def]) in
  fst (Handler env batch healthy) = Some (JSONError "unexpected EOF") /\
  posts (trace (snd (Handler env batch healthy))) =
    posts (trace (snd (past env [abc] healthy))) /\
  Handler env batch healthy =
    Handler env (mkS3Event ([abc] ++ [record "ct" "certs/cut.json"])) healthy.
Proof.
  apply (C2_pipeline_error_aborts_batch env [abc] (record "ct" "certs/cut.json")
           [def] healthy hook (snd (past env [abc] healthy))).
  - reflexivity.
  - eapply fails_decode; reflexivity.
Defined.

Lemma C6_witness :
  let text := messageText "certs/abc.json" exampleCert exampleCertText in
  let s2 := mkState worldSlackDown
     ([EvLoadConfig; EvGetParam "webhook_url"] ++
      [EvGetObject "ct" "certs/abc.json";
       EvCloseBody "ct" "certs/abc.json";
       EvPostWebhook hook text;
       EvLog LevelError "slack_webhook_err"
             [("err", AErr (WebhookError "slack server error"))]]) in
  past env ([] ++ [abc]) worldSlackDown = (Next hook, s2) /\
  Handler env (mkS3Event ([] ++ abc :: [def])) worldSlackDown =
    finish (forRecords env hook [def] s2) /\
  (forall evt w0 m, fst (Handler env evt w0) <> Some (WebhookError m)).
Proof.
  apply (C6_delivery_failure_is_not_fatal env [] abc [def] worldSlackDown hook
           (mkState worldSlackDown [EvLoadConfig; EvGetParam "webhook_url"])
           "certs/abc.json" _ worldSlackDown "slack server error" worldSlackDown).
  - reflexivity.
  - eapply reaches_delivery; [eapply reaches_entry|..]; reflexivity.
  - reflexivity.
Defined.

Lemma C7_witness :
  Handler env (batch ["certs/abc.json"; "certs/def.json"]) worldNoParam =
    finish (forRecords env "" (Records (batch ["certs/abc.json"; "certs/def.json"]))
              (mkState worldNoParam
                 [EvLoadConfig; EvGetParam "webhook_url";
                  EvLog LevelError "get_webhook_url_err"
                        [("err", AErr (ParamError "ParameterNotFound"))]])) /\
  (forall rec s key text w',
      reachesDelivery env rec (world s) key text w' ->
      exists s', iteration env "" rec s = (Next tt, s') /\
                 posts (trace s') = posts (trace s) ++ [("", text)]) /\
  (forall evt0 w0 m, fst (Handler env evt0 w0) <> Some (ParamError m)) /\
  fst (Handler env (batch ["certs/abc.json"; "certs/def.json"]) worldNoParam) = None /\
  map fst (posts (trace (snd
    (Handler env (batch ["certs/abc.json"; "certs/def.json"]) worldNoParam)))) =
    [""; ""].
Proof.
  destruct (C7_address_failure_is_not_fatal env
              (batch ["certs/abc.json"; "certs/def.json"])
              worldNoParam worldNoParam worldNoParam "" "ParameterNotFound")
    as (Hloop & Hround & Hnever & _ & Hall); [reflexivity..|].
  split; [exact Hloop|]. split; [exact Hround|]. split; [exact Hnever|].
  apply Hall.
  intros pre rec post u s1 Hrecs Hpast.
  destruct pre as [|r1 [|r2 pre]].
  - injection Hrecs as <- _. vm_compute in Hpast. injection Hpast as _ <-.
    eexists _, _, _.
    eapply reaches_delivery; [eapply reaches_entry|..]; reflexivity.
  - injection Hrecs as <- <- _. vm_compute in Hpast. injection Hpast as _ <-.
    eexists _, _, _.
    eapply reaches_delivery; [eapply reaches_entry|..]; reflexivity.
  - exfalso. injection Hrecs as _ _ Hrest.
    destruct pre; discriminate Hrest.
Defined.

Lemma C4_witness :
  let dnsNames := String.concat ", " (x509.DNSNames exampleCert) in
  let notBefore := time.FormatRFC3339 (x509.NotBefore exampleCert) in
  let notAfter := time.FormatRFC3339 (x509.NotAfter exampleCert) in
  posts (trace (snd (iteration env hook abc (mkState healthy [])))) =
    posts [] ++
    [(hook,
      ("*New Certificate Detected*" ++ nl ++ nl ++
       "*Key:* " ++ "certs/abc.json" ++ nl ++
       "*DNS Names:* " ++ dnsNames ++ nl ++
       "*Not Before:* " ++ notBefore ++ nl ++
       "*Not After:* " ++ notAfter ++ nl ++ nl ++
       "*Certificate Details:*" ++ nl ++
       "```" ++ exampleCertText ++ "```")%string)] /\
  (x509.DNSNames exampleCert = [] -> dnsNames = "") /\
  rfc3339.parse notBefore = Some (rfc3339.ofTime (x509.NotBefore exampleCert)) /\
  rfc3339.parse notAfter = Some (rfc3339.ofTime (x509.NotAfter exampleCert)) /\
  rfc3339.read notBefore = Some (time.UTC 1704067200) /\
  rfc3339.read notAfter = Some (time.UTC 1735689600).
Proof.
  destruct (C4_notification_fields env hook abc (mkState healthy []) "certs/abc.json"
           (ct.mkLogEntry 0 (Some (ct.mkCertificate (list_byte_of_string certBody))))
           healthy (ct.mkCertificate (list_byte_of_string certBody))
           exampleCert exampleCertText)
    as (Hposts & Hdns & Hnb & Hna & Hrb & Hra).
  - eapply reaches_entry; reflexivity.
  - reflexivity.
  - reflexivity.
  - reflexivity.
  - unfold rfc3339.representable. cbn. lia.
  - unfold rfc3339.representable. cbn. lia.
  - split; [exact Hposts|]. split; [exact Hdns|].
    split; [exact Hnb|]. split; [exact Hna|].
    split; [apply Hrb; reflexivity|apply Hra; reflexivity].
Defined.

Lemma C8_witness :
  exists text,
    posts (trace (snd (Handler env (mkS3Event [record "ct" "certs/abc.json"]) healthy))) =
      [(hook, text)] /\
    strings.Contains text "*DNS Names:* a.example.com, b.example.com" = true /\
    strings.Contains text "*Not Before:* 2024-01-01T00:00:00Z" = true /\
    strings.Contains text "*Not After:* 2025-01-01T00:00:00Z" = true.
Proof.
  apply (C8_scenario_notification env healthy hook
           (mkState healthy [EvLoadConfig; EvGetParam "webhook_url"]) "ct"
           (ct.mkLogEntry 0 (Some (ct.mkCertificate (list_byte_of_string certBody))))
           healthy (ct.mkCertificate (list_byte_of_string certBody))
           exampleCert exampleCertText).
  - reflexivity.
  - eapply reaches_entry; reflexivity.
  - reflexivity.
  - reflexivity.
  - reflexivity.
  - reflexivity.
  - reflexivity.
  - reflexivity.
Defined.

Lemma C9_witness :
  map snd (posts (trace (snd
    (iteration env hook abc (mkState healthy []))))) =
  map snd (posts (trace (snd
    (iteration env "" (record "ct" "certs/%61bc.json") (mkState worldSlackDown []))))).
Proof.
  apply (C9_same_entry_same_text env hook "" abc (record "ct" "certs/%61bc.json")
           healthy worldSlackDown "certs/abc.json" (list_byte_of_string certBody)
           healthy worldSlackDown); reflexivity.
Defined.

End Runs.

(** ** Keys and their unescaped form *)

Section Keys.

Import main events observations.
Local Open Scope list_scope.

(** A key without a percent sign unescapes to itself. *)
Lemma PathUnescape_plain s :
  hasPercent s = false -> url.PathUnescape s = inr s.
Proof.
  induction s as [|c s IH]; [reflexivity|].
  cbn. destruct (Ascii.eqb c "%"); cbn; [discriminate|].
  intros H. rewrite (IH H). reflexivity.
Qed.

(** The prefix holds no percent sign, so unescaping keeps it. *)
Lemma PathUnescape_keeps_prefix raw key :
  strings.HasPrefix raw prefix = true ->
  url.PathUnescape raw = inr key ->
  strings.HasPrefix key prefix = true.
Proof.
  unfold prefix.
  destruct raw as [|c1 [|c2 [|c3 [|c4 [|c5 [|c6 rest]]]]]]; cbn [strings.HasPrefix];
    rewrite ?andb_false_r; try discriminate.
  intros H.
  repeat (apply andb_true_iff in H; destruct H as [?H H]).
  repeat match goal with
         | H : Ascii.eqb _ _ = true |- _ => apply Ascii.eqb_eq in H; subst
         end.
  cbn. destruct (url.PathUnescape rest) as [e|t]; [discriminate|].
  intros [= <-]. reflexivity.
Qed.

End Keys.

(** ** What a run leaves in its trace *)

Section Traces.

Import main events observations.
Local Open Scope list_scope.

Context {World : Type} (env : Collaborators World).

Opaque messageText.

Lemma closes_app tr1 tr2 : closes (tr1 ++ tr2) = closes tr1 ++ closes tr2.
Proof.
  induction tr1 as [|ev tr1 IH]; [reflexivity|].
  destruct ev; cbn; rewrite IH; reflexivity.
Qed.

Lemma calls_app tr1 tr2 : calls (tr1 ++ tr2) = calls tr1 ++ calls tr2.
Proof. apply filter_app. Qed.

(** The events of [process]: the fetch first; a close only after the
    fetch, a post only after the close, to the address given and with
    the text of a certificate under the key; on the way out with an
    error, a last line that logs it with the key. *)
Lemma process_events webhookURL bucket key s :
  exists evs,
    trace (snd (process env webhookURL bucket key s)) =
      trace s ++ EvGetObject bucket key :: evs /\
    fetches evs = [] /\
    forallb (fun ev => negb (isSetup ev)) evs = true /\
    ((closes evs = [] /\ posts evs = [] /\
      exists m, fst (process env webhookURL bucket key s) = Return (Some (GetObjectError m))
             \/ fst (process env webhookURL bucket key s) = Return (Some (JSONError m))) \/
     (closes evs = [(bucket, key)] /\
      (posts evs = [] \/
       (fst (process env webhookURL bucket key s) = Next tt /\
        exists cert txt, posts evs = [(webhookURL, messageText key cert txt)])))).
Proof.
  run. cases; cbn [snd fst trace]; rewrite <- ?app_assoc; cbn [app];
    (eexists; split; [reflexivity|]); cbn;
    repeat split; eauto 10.
Qed.


Lemma iteration_events webhookURL rec s :
  exists evs,
    trace (snd (iteration env webhookURL rec s)) = trace s ++ evs /\
    roundShape webhookURL rec (fst (iteration env webhookURL rec s)) evs.
Proof.
  unfold roundShape, target, accepted.
  destruct (strings.HasPrefix (Key (Object (S3 rec))) prefix) eqn:Hp.
  - rewrite (iteration_accepted env _ _ _ Hp).
    destruct (url.PathUnescape (Key (Object (S3 rec)))) as [e|key] eqn:Hu.
    + exists []. cbn. rewrite app_nil_r. repeat split; eauto.
    + destruct (process_events webhookURL (Name (Bucket (S3 rec))) key s)
        as (evs & Htr & Hf & Hs & Hshape).
      exists (EvGetObject (Name (Bucket (S3 rec))) key :: evs).
      split; [exact Htr|]. cbn. rewrite Hf. repeat split; auto.
      * destruct Hshape as [(Hc & Hpo & m & Hr)|(Hc & Hpo)]; rewrite Hc.
        -- exists [(Name (Bucket (S3 rec)), key)]. split; [reflexivity|].
           right. eauto.
        -- exists []. auto.
      * destruct Hshape as [(Hc & Hpo & _)|(Hc & [Hpo|(Hr & cert & txt & Hpo)])];
          auto.
        right. exists key, cert, txt. auto.
  - rewrite (iteration_skip env _ _ _ Hp). cbn.
    exists [skipLog (Key (Object (S3 rec)))]. repeat split; auto.
    exists []. auto.
Qed.


Lemma targets_round rec recs n :
  targets (firstn (S n) (rec :: recs)) =
  match target rec with Some t => [t] | None => [] end ++ targets (firstn n recs).
Proof. cbn. destruct (target rec); reflexivity. Qed.

(** What the loop adds to the trace: the rounds one after the other,
    up to the record on which the handler returns. *)
Lemma forRecords_events webhookURL recs s :
  exists evs n,
    trace (snd (forRecords env webhookURL recs s)) = trace s ++ evs /\
    (n <= List.length recs)%nat /\
    forallb (fun ev => negb (isSetup ev)) evs = true /\
    fetches evs = targets (firstn n recs) /\
    (exists rest,
        fetches evs = closes evs ++ rest /\
        (rest = [] \/
         exists t m, rest = [t] /\
           (fst (forRecords env webhookURL recs s) = Return (Some (GetObjectError m)) \/
            fst (forRecords env webhookURL recs s) = Return (Some (JSONError m))))) /\
    (List.length (posts evs) <= List.length (closes evs))%nat /\
    (forall a t, In (a, t) (posts evs) ->
       a = webhookURL /\
       exists b key cert txt, In (b, key) (closes evs) /\ t = messageText key cert txt).
Proof.
  revert s. induction recs as [|rec recs IH]; intros s.
  - exists [], 0%nat. cbn. rewrite app_nil_r. repeat split; auto;
      try contradiction.
    exists []. auto.
  - cbn [forRecords]. unfold bind.
    destruct (iteration_events webhookURL rec s)
      as (evs1 & Htr1 & Hs1 & Hf1 & (rest1 & Hc1 & Hrest1) & Hp1).
    destruct (iteration env webhookURL rec s) as [[[]|e] s1] eqn:Hit;
      cbn [fst snd] in *.
    + destruct (IH s1) as (evs2 & n & Htr2 & Hn & Hs2 & Hf2 & (rest2 & Hc2 & Hrest2) & Hl2 & Hp2).
      assert (Hr1 : rest1 = []).
      { destruct Hrest1 as [?|(t & m & _ & [H|H])]; [assumption|discriminate..]. }
      subst rest1. rewrite app_nil_r in Hc1.
      exists (evs1 ++ evs2), (S n).
      rewrite Htr2, Htr1, <- app_assoc.
      rewrite forallb_app, Hs1, Hs2, !fetches_app, !closes_app, !posts_app,
        !length_app, targets_round, Hf2, <- Hf1.
      repeat split; cbn [List.length]; try lia; auto.
      * exists rest2. rewrite Hc1 at 1. rewrite <- Hf2, Hc2, app_assoc.
        split; [reflexivity|exact Hrest2].
      * destruct Hp1 as [Hp1|(k & c & x & _ & Hcl & Hp1)]; rewrite Hp1; [cbn; lia|].
        rewrite Hcl. cbn. lia.
      * apply in_app_or in H. destruct H as [H|H]; [|apply (Hp2 _ _ H)].
        destruct Hp1 as [Hp1|(k & c & x & _ & Hcl & Hp1)]; rewrite Hp1 in H;
          [destruct H|]. destruct H as [[= <- <-]|[]]. reflexivity.
      * apply in_app_or in H. destruct H as [H|H].
        -- destruct Hp1 as [Hp1|(k & c & x & _ & Hcl & Hp1)]; rewrite Hp1 in H;
             [destruct H|]. destruct H as [[= <- <-]|[]].
           exists (Name (Bucket (S3 rec))), k, c, x. split; [|reflexivity].
           apply in_or_app. left. rewrite Hcl. left. reflexivity.
        -- destruct (Hp2 a t H) as (_ & b & k & c & x & Hin & ->).
           exists b, k, c, x. split; [|reflexivity].
           apply in_or_app. right. exact Hin.
    + exists evs1, 1%nat. rewrite Htr1.
      assert (Hpo : posts evs1 = []).
      { destruct Hp1 as [?|(k & c & x & H & _)]; [assumption|discriminate]. }
      rewrite Hpo.
      split; [reflexivity|]. split; [cbn; lia|]. split; [exact Hs1|].
      split; [rewrite Hf1; cbn; destruct (target rec); reflexivity|].
      split; [exists rest1; split; [exact Hc1|exact Hrest1]|].
      split; [cbn; lia|]. intros a t [].
Qed.


Lemma prologue_run w :
  prologue env (mkState w []) =
  match LoadDefaultConfig env w with
  | (Some msg, w1) => (Return (Some (ConfigError msg)), mkState w1 [EvLoadConfig])
  | (None, w1) =>
      match ParamGet env "webhook_url" w1 with
      | ((webhookURL, None), w2) =>
          (Next webhookURL, mkState w2 [EvLoadConfig; EvGetParam "webhook_url"])
      | ((webhookURL, Some msg), w2) =>
          (Next webhookURL,
           mkState w2 [EvLoadConfig; EvGetParam "webhook_url";
                       EvLog LevelError "get_webhook_url_err"
                             [("err", AErr (ParamError msg))]])
      end
  end.
Proof.
  unfold prologue, bind, call, lgrError, emit, pure, return_. cbn.
  destruct (LoadDefaultConfig env w) as [[msg|] w1]; cbn; [reflexivity|].
  destruct (ParamGet env "webhook_url" w1) as [[u [msg|]] w2]; reflexivity.
Qed.

Lemma Handler_run evt w :
  Handler env evt w =
  match prologue env (mkState w []) with
  | (Next webhookURL, s0) => finish (forRecords env webhookURL (Records evt) s0)
  | (Return err, s0) => (err, s0)
  end.
Proof.
  unfold Handler, HandlerM, bind.
  destruct (prologue env (mkState w [])) as [[u|err] s0]; [|reflexivity].
  apply finish_return.
Qed.

Lemma finish_fst (r : flow unit * State World) e :
  fst r = Return (Some e) -> fst (finish r) = Some e.
Proof. destruct r as [[[]|err] s]; cbn; congruence. Qed.

Lemma finish_snd (r : flow unit * State World) : snd (finish r) = snd r.
Proof. destruct r as [[[]|err] s]; reflexivity. Qed.

(** The address the handler works with: the string [kv.Get] gave,
    with or without an error. *)
Lemma prologue_address w webhookURL s0 :
  prologue env (mkState w []) = (Next webhookURL, s0) ->
  webhookURL = fst (fst (ParamGet env "webhook_url" (snd (LoadDefaultConfig env w)))) /\
  fst (LoadDefaultConfig env w) = None /\
  fetches (trace s0) = [] /\ closes (trace s0) = [] /\ posts (trace s0) = [] /\
  filter isSetup (trace s0) = [EvLoadConfig; EvGetParam "webhook_url"].
Proof.
  rewrite prologue_run.
  destruct (LoadDefaultConfig env w) as [[msg|] w1]; cbn; [discriminate|].
  destruct (ParamGet env "webhook_url" w1) as [[u [msg|]] w2]; cbn;
    intros [= <- <-]; cbn; repeat split.
Qed.

Lemma no_setup evs :
  forallb (fun ev => negb (isSetup ev)) evs = true -> filter isSetup evs = [].
Proof.
  induction evs as [|ev evs IH]; [reflexivity|]. cbn.
  destruct (isSetup ev); cbn; [discriminate|exact IH].
Qed.

Lemma targets_In t recs :
  In t (targets recs) -> exists rec, In rec recs /\ target rec = Some t.
Proof.
  induction recs as [|rec recs IH]; cbn; [intros []|].
  destruct (target rec) as [t'|] eqn:Ht.
  - intros [<-|H]; [eauto|]. destruct (IH H) as (r & Hin & Hr). eauto.
  - intros H. destruct (IH H) as (r & Hin & Hr). eauto.
Qed.

(** X1.  When the configuration cannot be loaded the handler returns
    that error before anything else: the address is not looked up, and
    no record of the batch is looked at. *)
Theorem Handler_config_failure evt w msg w1 :
  LoadDefaultConfig env w = (Some msg, w1) ->
  Handler env evt w = (Some (ConfigError msg), mkState w1 [EvLoadConfig]).
Proof.
  intros H. rewrite Handler_run, prologue_run, H. reflexivity.
Qed.

(** X2.  A batch none of whose keys has the prefix, the empty batch
    among them, ends in nil: one info line per record in batch order,
    the world as the setup left it. *)
Theorem Handler_no_accepted_record recs w webhookURL s0 :
  past env [] w = (Next webhookURL, s0) ->
  forallb (fun rec => negb (accepted rec)) recs = true ->
  Handler env (mkS3Event recs) w =
  (None, mkState (world s0)
                 (trace s0 ++ map (fun rec => skipLog (Key (Object (S3 rec)))) recs)).
Proof.
  intros Hpast Hall.
  change recs with ([] ++ recs) at 1. rewrite Handler_past, Hpast.
  clear Hpast. revert s0. induction recs as [|rec recs IH]; intros s0.
  - cbn. rewrite app_nil_r. destruct s0; reflexivity.
  - cbn in Hall. apply andb_true_iff in Hall as [Hrec Hrest].
    cbn [forRecords]. unfold bind.
    rewrite iteration_skip by (apply negb_true_iff, Hrec).
    rewrite (IH Hrest). cbn. rewrite <- app_assoc. reflexivity.
Qed.

(** The objects fetched are targets of records at the beginning of the
    batch. *)
Lemma Handler_fetches_are_targets evt w :
  exists n,
    (n <= List.length (Records evt))%nat /\
    fetches (trace (snd (Handler env evt w))) = targets (firstn n (Records evt)).
Proof.
  rewrite Handler_run.
  destruct (prologue env (mkState w [])) as [[u|err] s0] eqn:Hpro.
  - destruct (prologue_address _ _ _ Hpro) as (_ & _ & Hf0 & _).
    destruct (forRecords_events u (Records evt) s0)
      as (evs & n & Htr & Hn & _ & Hf & _).
    exists n. split; [exact Hn|].
    rewrite finish_snd, Htr, fetches_app, Hf0, Hf. reflexivity.
  - exists 0%nat. split; [lia|]. cbn.
    rewrite prologue_run in Hpro.
    destruct (LoadDefaultConfig env w) as [[msg|] w1].
    + injection Hpro as _ <-. reflexivity.
    + destruct (ParamGet env "webhook_url" w1) as [[a [m|]] w2]; discriminate.
Qed.

(** The fetches of the loop: the targets of the records up to the one,
    if any, on which the loop stops. *)
Lemma forRecords_fetches_upto webhookURL recs : forall s,
  exists n,
    (n <= List.length recs)%nat /\
    fetches (trace (snd (forRecords env webhookURL recs s))) =
      fetches (trace s) ++ targets (firstn n recs) /\
    (forall s', forRecords env webhookURL (firstn n recs) s = (Next tt, s') ->
                n = List.length recs) /\
    (forall m, (m < n)%nat ->
       exists s', forRecords env webhookURL (firstn m recs) s = (Next tt, s')).
Proof.
  induction recs as [|rec recs IH]; intros s.
  - exists 0%nat. cbn. rewrite app_nil_r. repeat split; auto. intros m Hm. lia.
  - destruct (iteration_events webhookURL rec s) as (evs1 & Htr1 & _ & Hf1 & _).
    destruct (iteration env webhookURL rec s) as [[[]|e] s1] eqn:Hit;
      cbn [fst snd] in *.
    + destruct (IH s1) as (n & Hn & Hf & Hlast & Hbefore).
      exists (S n). split; [cbn; lia|]. split; [|split].
      * cbn [forRecords]. unfold bind. rewrite Hit.
        rewrite Hf, Htr1, fetches_app, Hf1, targets_round, app_assoc. reflexivity.
      * intros s'. cbn [firstn forRecords]. unfold bind. rewrite Hit.
        intros H. cbn. f_equal. exact (Hlast s' H).
      * intros [|m] Hm.
        -- exists s. reflexivity.
        -- cbn [firstn forRecords]. unfold bind. rewrite Hit.
           apply Hbefore. lia.
    + exists 1%nat. split; [cbn; lia|]. split; [|split].
      * cbn [forRecords]. unfold bind. rewrite Hit. cbn [snd].
        rewrite Htr1, fetches_app, Hf1. cbn. destruct (target rec); reflexivity.
      * intros s'. cbn [firstn forRecords]. unfold bind. rewrite Hit. discriminate.
      * intros m Hm. assert (m = 0)%nat by lia. subst m. exists s. reflexivity.
Qed.

Lemma past_run pre w :
  past env pre w =
  match prologue env (mkState w []) with
  | (Next webhookURL, s0) =>
      match forRecords env webhookURL pre s0 with
      | (Next _, s) => (Next webhookURL, s)
      | (Return err, s) => (Return err, s)
      end
  | (Return err, s0) => (Return err, s0)
  end.
Proof.
  unfold past, bind, pure.
  destruct (prologue env (mkState w [])) as [[u|err] s0]; [|reflexivity].
  destruct (forRecords env u pre s0) as [[[]|err] s]; reflexivity.
Qed.

(** X3.  The objects fetched are the targets of the first [n] records
    of the batch, in batch order and once each, where [n] counts the
    records up to and with the one on which the handler returned: the
    handler is past every shorter beginning of the batch, and is past
    the first [n] only when they are the whole batch. *)
Theorem Handler_fetches_in_order evt w :
  exists n,
    (n <= List.length (Records evt))%nat /\
    fetches (trace (snd (Handler env evt w))) = targets (firstn n (Records evt)) /\
    (forall webhookURL s,
        past env (firstn n (Records evt)) w = (Next webhookURL, s) ->
        n = List.length (Records evt)) /\
    (forall m, (m < n)%nat ->
       exists webhookURL s,
         past env (firstn m (Records evt)) w = (Next webhookURL, s)).
Proof.
  rewrite Handler_run.
  destruct (prologue env (mkState w [])) as [[u|err] s0] eqn:Hpro.
  - destruct (prologue_address _ _ _ Hpro) as (_ & _ & Hf0 & _).
    destruct (forRecords_fetches_upto u (Records evt) s0)
      as (n & Hn & Hf & Hlast & Hbefore).
    exists n. split; [exact Hn|]. split; [|split].
    + rewrite finish_snd, Hf, Hf0. reflexivity.
    + intros a s. rewrite past_run, Hpro.
      destruct (forRecords env u (firstn n (Records evt)) s0) as [[[]|e] s'] eqn:Hfor;
        [|discriminate].
      intros _. exact (Hlast s' eq_refl).
    + intros m Hm. destruct (Hbefore m Hm) as (s' & Hs').
      exists u, s'. rewrite past_run, Hpro, Hs'. reflexivity.
  - exists 0%nat. split; [lia|]. split; [|split].
    + cbn. rewrite prologue_run in Hpro.
      destruct (LoadDefaultConfig env w) as [[msg|] w1].
      * injection Hpro as _ <-. reflexivity.
      * destruct (ParamGet env "webhook_url" w1) as [[a [m|]] w2]; discriminate.
    + intros a s. rewrite past_run, Hpro. discriminate.
    + intros m Hm. lia.
Qed.

(** X4.  Every object the handler asks for is that of an accepted
    record of the batch, in the bucket of the record and under its
    unescaped key, and that key still has the prefix. *)
Theorem Handler_fetches_within_prefix evt w bucket key :
  In (bucket, key) (fetches (trace (snd (Handler env evt w)))) ->
  strings.HasPrefix key prefix = true /\
  exists rec,
    In rec (Records evt) /\ accepted rec = true /\
    Name (Bucket (S3 rec)) = bucket /\
    url.PathUnescape (Key (Object (S3 rec))) = inr key.
Proof.
  destruct (Handler_fetches_are_targets evt w) as (n & _ & ->).
  intros Hin. apply targets_In in Hin. destruct Hin as (rec & Hin & Ht).
  assert (Hin' : In rec (Records evt)).
  { rewrite <- (firstn_skipn n (Records evt)). apply in_or_app. left. exact Hin. }
  unfold target in Ht. destruct (accepted rec) eqn:Hacc; [|discriminate].
  destruct (url.PathUnescape (Key (Object (S3 rec)))) as [e|k] eqn:Hu; [discriminate|].
  injection Ht as <- <-.
  split; [exact (PathUnescape_keeps_prefix _ _ Hacc Hu)|].
  exists rec. auto.
Qed.

(** X5.  The bodies closed are the objects fetched, in the same order,
    but possibly for the last one; a fetch is left without its close
    only when the handler returns a retrieval error (there is no body)
    or a decode error (the body stays open). *)
Theorem Handler_closes_what_it_fetches evt w :
  exists rest,
    fetches (trace (snd (Handler env evt w))) =
      closes (trace (snd (Handler env evt w))) ++ rest /\
    (rest = [] \/
     exists t m, rest = [t] /\
       (fst (Handler env evt w) = Some (GetObjectError m) \/
        fst (Handler env evt w) = Some (JSONError m))).
Proof.
  rewrite Handler_run.
  destruct (prologue env (mkState w [])) as [[u|err] s0] eqn:Hpro.
  - destruct (prologue_address _ _ _ Hpro) as (_ & _ & Hf0 & Hc0 & _).
    destruct (forRecords_events u (Records evt) s0)
      as (evs & n & Htr & _ & _ & _ & (rest & Hc & Hrest) & _).
    exists rest. rewrite finish_snd, Htr, fetches_app, closes_app, Hf0, Hc0.
    split; [exact Hc|].
    destruct Hrest as [?|(t & m & -> & [H|H])]; [auto|right..];
      exists t, m; (split; [reflexivity|]);
      [left|right]; apply finish_fst, H.
  - exists []. rewrite app_nil_r. split; [|auto]. cbn.
    rewrite prologue_run in Hpro.
    destruct (LoadDefaultConfig env w) as [[msg|] w1].
    + injection Hpro as _ <-. reflexivity.
    + destruct (ParamGet env "webhook_url" w1) as [[a [m|]] w2]; discriminate.
Qed.

(** X6.  Every notification goes to the one address the lookup gave,
    and its text is that of a certificate under the key of an object
    the handler fetched and closed; there are no more notifications
    than closed bodies. *)
Theorem Handler_posts_one_address evt w :
  let tr := trace (snd (Handler env evt w)) in
  (List.length (posts tr) <= List.length (closes tr))%nat /\
  forall address text,
    In (address, text) (posts tr) ->
    address = fst (fst (ParamGet env "webhook_url" (snd (LoadDefaultConfig env w)))) /\
    exists bucket key cert certInfoTxt,
      In (bucket, key) (closes tr) /\ text = messageText key cert certInfoTxt.
Proof.
  cbv zeta. rewrite Handler_run.
  destruct (prologue env (mkState w [])) as [[u|err] s0] eqn:Hpro.
  - destruct (prologue_address _ _ _ Hpro) as (Hu & _ & _ & Hc0 & Hp0 & _).
    destruct (forRecords_events u (Records evt) s0)
      as (evs & n & Htr & _ & _ & _ & _ & Hl & Hp).
    rewrite finish_snd, Htr, posts_app, closes_app, Hc0, Hp0. cbn [app].
    split; [exact Hl|]. intros a t Hin.
    destruct (Hp a t Hin) as (-> & H). split; [exact Hu|exact H].
  - cbn [snd].
    rewrite prologue_run in Hpro.
    destruct (LoadDefaultConfig env w) as [[msg|] w1].
    + injection Hpro as _ <-. cbn. split; [lia|intros a t []].
    + destruct (ParamGet env "webhook_url" w1) as [[a [m|]] w2]; discriminate.
Qed.

(** X7.  The setup is done once per invocation, whatever the batch:
    the configuration is loaded once, and the address is looked up once
    when the configuration loaded and not at all otherwise. *)
Theorem Handler_setup_once evt w :
  filter isSetup (trace (snd (Handler env evt w))) =
  match fst (LoadDefaultConfig env w) with
  | Some _ => [EvLoadConfig]
  | None => [EvLoadConfig; EvGetParam "webhook_url"]
  end.
Proof.
  rewrite Handler_run.
  destruct (prologue env (mkState w [])) as [[u|err] s0] eqn:Hpro.
  - destruct (prologue_address _ _ _ Hpro) as (_ & -> & _ & _ & _ & Hs0).
    destruct (forRecords_events u (Records evt) s0)
      as (evs & n & Htr & _ & Hs & _).
    rewrite finish_snd, Htr, filter_app, Hs0, (no_setup _ Hs). reflexivity.
  - cbn [snd].
    rewrite prologue_run in Hpro.
    destruct (LoadDefaultConfig env w) as [[msg|] w1].
    + injection Hpro as _ <-. reflexivity.
    + destruct (ParamGet env "webhook_url" w1) as [[a [m|]] w2]; discriminate.
Qed.

Transparent messageText.

End Traces.

(** ** Records that are skipped, keys that need no unescaping *)

Section Skipping.

Import main events observations.
Local Open Scope list_scope.

Context {World : Type} (env : Collaborators World).

Opaque messageText.

(** A round of the loop reads the world only: the events so far are
    carried along unchanged. *)
Lemma iteration_frame webhookURL rec w tr :
  iteration env webhookURL rec (mkState w tr) =
  let (r, s1) := iteration env webhookURL rec (mkState w []) in
  (r, mkState (world s1) (tr ++ trace s1)).
Proof.
  unfold iteration.
  destruct (negb (strings.HasPrefix (Key (Object (S3 rec))) prefix)).
  - reflexivity.
  - run. cbn [world trace].
    destruct (url.PathUnescape (Key (Object (S3 rec)))) as [e|key];
      [cbn; rewrite app_nil_r; reflexivity|].
    repeat (cbv beta iota; cbn [world trace];
            match goal with
            | |- context [match ?x with _ => _ end] => atom x; destruct x eqn:?
            end);
      cbv beta iota; cbn [world trace app]; rewrite <- ?app_assoc; reflexivity.
Qed.

Lemma forRecords_skipped webhookURL recs : forall s s',
  world s = world s' ->
  calls (trace s) = calls (trace s') ->
  let r := forRecords env webhookURL recs s in
  let r' := forRecords env webhookURL (filter accepted recs) s' in
  fst r = fst r' /\
  world (snd r) = world (snd r') /\
  calls (trace (snd r)) = calls (trace (snd r')).
Proof.
  induction recs as [|rec recs IH]; intros s s' Hw Hc; cbv zeta.
  - cbn. auto.
  - cbn [filter forRecords].
    destruct (accepted rec) eqn:Hacc.
    + cbn [forRecords]. unfold bind.
      destruct s as [w tr], s' as [w' tr']. cbn [world trace] in Hw, Hc. subst w'.
      rewrite (iteration_frame webhookURL rec w tr),
              (iteration_frame webhookURL rec w tr').
      destruct (iteration env webhookURL rec (mkState w [])) as [[[]|e] s1].
      * apply IH; cbn [world trace]; [reflexivity|].
        rewrite !calls_app, Hc. reflexivity.
      * cbn [fst snd world trace]. rewrite !calls_app, Hc. auto.
    + unfold bind. rewrite iteration_skip by exact Hacc.
      apply IH; cbn [world trace]; [exact Hw|].
      rewrite calls_app. cbn. rewrite app_nil_r. exact Hc.
Qed.

(** X8.  Records whose key lacks the prefix leave nothing but their
    info line: with them removed from the batch, the handler returns
    the same error or nil, leaves the same world and makes the same
    calls to the services. *)
Theorem Handler_skipped_records_removable recs w :
  let run := Handler env (mkS3Event recs) w in
  let run' := Handler env (mkS3Event (filter accepted recs)) w in
  fst run = fst run' /\
  world (snd run) = world (snd run') /\
  calls (trace (snd run)) = calls (trace (snd run')).
Proof.
  cbv zeta. rewrite !Handler_run. cbn [Records].
  destruct (prologue env (mkState w [])) as [[u|err] s0]; [|auto].
  pose proof (forRecords_skipped u recs s0 s0 eq_refl eq_refl) as H.
  cbv zeta in H.
  destruct (forRecords env u recs s0) as [[[]|e] s1],
           (forRecords env u (filter accepted recs) s0) as [[[]|e'] s1'];
    cbn in *; destruct H as (H1 & H2 & H3); try discriminate; auto.
  injection H1 as ->. auto.
Qed.

(** X9.  The order of the code and the order of the specification
    give the same round for a key that has the prefix as the event
    gives it, and for a key without a percent sign. *)
Theorem iteration_orders_agree webhookURL rec s :
  accepted rec = true \/ hasPercent (Key (Object (S3 rec))) = false ->
  iteration env webhookURL rec s = iterationUnescapeFirst env webhookURL rec s.
Proof.
  unfold accepted, iteration, iterationUnescapeFirst. intros [Hacc|Hplain].
  - rewrite Hacc. cbn [negb]. unfold bind, check.
    destruct (url.PathUnescape (Key (Object (S3 rec)))) as [e|key] eqn:Hu;
      [reflexivity|].
    unfold pure. rewrite (PathUnescape_keeps_prefix _ _ Hacc Hu). reflexivity.
  - rewrite (PathUnescape_plain _ Hplain). unfold bind, check, pure.
    destruct (strings.HasPrefix (Key (Object (S3 rec))) prefix); reflexivity.
Qed.

(** X10.  An accepted key without a percent sign is asked for exactly
    as the event gives it; a plus sign in it stays a plus sign. *)
Theorem iteration_plain_key_as_given webhookURL rec s :
  accepted rec = true ->
  hasPercent (Key (Object (S3 rec))) = false ->
  iteration env webhookURL rec s =
    process env webhookURL (Name (Bucket (S3 rec))) (Key (Object (S3 rec))) s /\
  target rec = Some (Name (Bucket (S3 rec)), Key (Object (S3 rec))).
Proof.
  intros Hacc Hplain. split.
  - rewrite (iteration_accepted env _ _ _ Hacc), (PathUnescape_plain _ Hplain).
    reflexivity.
  - unfold target. rewrite Hacc, (PathUnescape_plain _ Hplain). reflexivity.
Qed.

Transparent messageText.

End Skipping.

(** ** Errors on the way out *)

Section Failures.

Import main events observations.
Local Open Scope list_scope.

Context {World : Type} (env : Collaborators World).

Opaque messageText.

(** X11.  When the text of a parsed certificate cannot be produced the
    handler returns that error: the body is closed, the error is logged
    with the key, nothing is posted and the records after it are not
    looked at. *)
Theorem Handler_certificate_text_failure
    pre rec post w webhookURL s1 key entry w' leafCert cert msg :
  past env pre w = (Next webhookURL, s1) ->
  reachesEntry env rec (world s1) key entry w' ->
  ct.X509Cert entry = Some leafCert ->
  ParseCertificate env (ct.Raw leafCert) = inr cert ->
  CertificateText env cert = inl msg ->
  Handler env (mkS3Event (pre ++ rec :: post)) w =
  (Some (CertTextError msg),
   mkState w' (trace s1 ++
     [EvGetObject (Name (Bucket (S3 rec))) key;
      EvCloseBody (Name (Bucket (S3 rec))) key;
      EvLog LevelError "cert txt err"
            [("key", AStr key); ("err", AErr (CertTextError msg))]])).
Proof.
  intros Hpast [k body w2 leaf e Hp Hu Hg Hd Hl] Hx Hc Ht.
  rewrite Handler_past, Hpast. cbn [forRecords]. unfold bind.
  rewrite (iteration_accepted env _ _ _ Hp), Hu.
  run. rewrite Hg. cbn. rewrite Hd. cbn. rewrite Hl. cbn. rewrite Hx. cbn.
  rewrite Hc. cbn. rewrite Ht. cbn. rewrite <- !app_assoc. reflexivity.
Qed.

(** X12.  When the object is retrieved but is not a leaf entry the
    handler returns the decode error with the body left open: the trace
    ends with the fetch and the line that logs the error, without a
    close. *)
Theorem Handler_decode_failure_leaves_body_open
    pre rec post w webhookURL s1 key body w' msg :
  past env pre w = (Next webhookURL, s1) ->
  accepted rec = true ->
  url.PathUnescape (Key (Object (S3 rec))) = inr key ->
  GetObject env (Name (Bucket (S3 rec))) key (world s1) = (inr body, w') ->
  DecodeLeafEntry env body = inl msg ->
  Handler env (mkS3Event (pre ++ rec :: post)) w =
  (Some (JSONError msg),
   mkState w' (trace s1 ++
     [EvGetObject (Name (Bucket (S3 rec))) key;
      EvLog LevelError "decode json err"
            [("key", AStr key); ("err", AErr (JSONError msg))]])).
Proof.
  intros Hpast Hp Hu Hg Hd.
  rewrite Handler_past, Hpast. cbn [forRecords]. unfold bind.
  rewrite (iteration_accepted env _ _ _ Hp), Hu.
  run. rewrite Hg. cbn. rewrite Hd. cbn. rewrite <- !app_assoc. reflexivity.
Qed.






Transparent messageText.

End Failures.

(** ** More runs on the test double *)

Section MoreRuns.

Import main events observations fixture.
Local Open Scope list_scope.

Lemma Handler_config_failure_witness :
  Handler envNoConfig (batch ["certs/abc.json"; "certs/def.json"]) healthy =
  (Some (ConfigError "no credentials"), mkState healthy [EvLoadConfig]).
Proof.
  apply (Handler_config_failure envNoConfig
           (batch ["certs/abc.json"; "certs/def.json"]) healthy
           "no credentials" healthy).
  reflexivity.
Defined.

Lemma Handler_no_accepted_record_witness :
  Handler env (mkS3Event [record "ct" "other/abc.json"; record "ct" "cert/x"]) healthy =
  (None,
   mkState healthy
     ([EvLoadConfig; EvGetParam "webhook_url"] ++
      map (fun rec => skipLog (Key (Object (S3 rec))))
          [record "ct" "other/abc.json"; record "ct" "cert/x"])).
Proof.
  apply (Handler_no_accepted_record env
           [record "ct" "other/abc.json"; record "ct" "cert/x"] healthy hook
           (mkState healthy [EvLoadConfig; EvGetParam "webhook_url"]));
    reflexivity.
Defined.

Lemma Handler_fetches_within_prefix_witness :
  strings.HasPrefix "certs/abc.json" prefix = true /\
  exists rec,
    In rec (Records (batch ["other/x"; "certs/%61bc.json"])) /\
    accepted rec = true /\
    Name (Bucket (S3 rec)) = "ct" /\
    url.PathUnescape (Key (Object (S3 rec))) = inr "certs/abc.json".
Proof.
  apply (Handler_fetches_within_prefix env
           (batch ["other/x"; "certs/%61bc.json"]) healthy "ct" "certs/abc.json").
  left. reflexivity.
Defined.

Lemma iteration_orders_agree_witness :
  iteration env hook (record "ct" "certs/%61bc.json") (mkState healthy []) =
  iterationUnescapeFirst env hook (record "ct" "certs/%61bc.json") (mkState healthy []).
Proof.
  apply (iteration_orders_agree env hook (record "ct" "certs/%61bc.json")
           (mkState healthy [])).
  left. reflexivity.
Defined.

Lemma iteration_plain_key_as_given_witness :
  iteration env hook (record "ct" "certs/a+b.json") (mkState healthy []) =
    process env hook "ct" "certs/a+b.json" (mkState healthy []) /\
  target (record "ct" "certs/a+b.json") = Some ("ct", "certs/a+b.json").
Proof.
  apply (iteration_plain_key_as_given env hook (record "ct" "certs/a+b.json")
           (mkState healthy [])); reflexivity.
Defined.

Lemma Handler_certificate_text_failure_witness :
  Handler envNoText (mkS3Event ([] ++ abc :: [def])) healthy =
  (Some (CertTextError "unsupported public key"),
   mkState healthy
     ([EvLoadConfig; EvGetParam "webhook_url"] ++
      [EvGetObject "ct" "certs/abc.json";
       EvCloseBody "ct" "certs/abc.json";
       EvLog LevelError "cert txt err"
             [("key", AStr "certs/abc.json");
              ("err", AErr (CertTextError "unsupported public key"))]])).
Proof.
  apply (Handler_certificate_text_failure envNoText [] abc [def] healthy hook
           (mkState healthy [EvLoadConfig; EvGetParam "webhook_url"])
           "certs/abc.json"
           (ct.mkLogEntry 0 (Some (ct.mkCertificate (list_byte_of_string certBody))))
           healthy (ct.mkCertificate (list_byte_of_string certBody)) exampleCert
           "unsupported public key").
  - reflexivity.
  - eapply reaches_entry; reflexivity.
  - reflexivity.
  - reflexivity.
  - reflexivity.
Defined.

Lemma Handler_decode_failure_leaves_body_open_witness :
  Handler env (mkS3Event ([abc] ++ record "ct" "certs/cut.json" :: [def])) healthy =
  (Some (JSONError "unexpected EOF"),
   mkState (world (snd (past env [abc] healthy)))
     (trace (snd (past env [abc] healthy)) ++
      [EvGetObject "ct" "certs/cut.json";
       EvLog LevelError "decode json err"
             [("key", AStr "certs/cut.json");
              ("err", AErr (JSONError "unexpected EOF"))]])).
Proof.
  apply (Handler_decode_failure_leaves_body_open env [abc]
           (record "ct" "certs/cut.json") [def] healthy hook
           (snd (past env [abc] healthy)) "certs/cut.json"
           (list_byte_of_string truncatedBody)); reflexivity.
Defined.


Lemma FormatRFC3339_reads_back_witness :
  rfc3339.read (time.FormatRFC3339 (time.mkTime 1709164800 (-19800))) =
  Some (time.mkTime 1709164800 (-19800)).
Proof.
  apply (FormatRFC3339_reads_back (time.mkTime 1709164800 (-19800))).
  - unfold rfc3339.representable. cbn. lia.
  - reflexivity.
Defined.

End MoreRuns.
